(** * Weather chat bot: a shallow embedding of [main.py]

    The program is one Python module with two coroutines:
    [fetch_weather_from_api], which queries the weather provider and turns
    its JSON answer into a dictionary with the conditions and the Celsius
    temperature, and [chat_with_bot], the console loop that keeps the
    transcript [messages], calls the language model and dispatches the
    weather lookup when the model asks for it.

    The embedding follows the module from top to bottom:
    - [PyStr]: [str.strip] and [str.lower] on Latin-1 text;
    - [PyFloat]: binary64 arithmetic and [round(x, 1)];
    - [Json]: the object returned by [resp.json()] and its subscripts;
    - [Weather]: the body of [fetch_weather_from_api];
    - [Wide]: [str.strip] and [str.lower] on all of Unicode, and the part
      of the loop that reads and strips a line, on such text;
    - [Chat]: the state of [chat_with_bot], the evaluation of the
      function-call arguments and the conversation loop.

    The outside world (console input, language-model endpoint, weather
    provider) is a parameter of the run: the lines typed by the user and two
    oracles that answer each outbound call. *)

From Stdlib Require Import ZArith List String Ascii Bool Lia Floats.
Import ListNotations.

Set Warnings "-inexact-float,-register-all".

Local Open Scope string_scope.
Local Open Scope Z_scope.

(* ================================================================= *)
(** ** Python strings *)

(** A Python [str] is a sequence of code points.  The embedding keeps the
    code points below 256 (Latin-1), one per [ascii]; on them [isspace] and
    [lower] are the tables below. *)
Module PyStr.

Definition code (c : ascii) : N := N_of_ascii c.

(** [str.isspace] on one code point: TAB..CR, FS..US, SPACE, NEL, NBSP. *)
Definition isspace (c : ascii) : bool :=
  let n := code c in
  ((9 <=? n) && (n <=? 13) || (28 <=? n) && (n <=? 32)
   || (n =? 133) || (n =? 160))%N.

(** [str.lower] on one code point: A..Z and the Latin-1 capitals
    U+00C0..U+00DE (without the multiplication sign U+00D7) move up by 32. *)
Definition lower_char (c : ascii) : ascii :=
  let n := code c in
  if ((65 <=? n) && (n <=? 90)
      || (192 <=? n) && (n <=? 222) && negb (n =? 215))%N
  then ascii_of_N (n + 32) else c.

Fixpoint lower (s : string) : string :=
  match s with
  | EmptyString => EmptyString
  | String c t => String (lower_char c) (lower t)
  end.

Fixpoint lstrip (s : string) : string :=
  match s with
  | EmptyString => EmptyString
  | String c t => if isspace c then lstrip t else s
  end.

Fixpoint rstrip (s : string) : string :=
  match s with
  | EmptyString => EmptyString
  | String c t =>
      match rstrip t with
      | EmptyString => if isspace c then EmptyString else String c EmptyString
      | t' => String c t'
      end
  end.

(** [s.strip()] *)
Definition strip (s : string) : string := rstrip (lstrip s).

(** Every code point of [s] is white space. *)
Fixpoint all_space (s : string) : bool :=
  match s with
  | EmptyString => true
  | String c t => isspace c && all_space t
  end.

(** No code point of [s] is white space. *)
Fixpoint no_space (s : string) : bool :=
  match s with
  | EmptyString => true
  | String c t => negb (isspace c) && no_space t
  end.

End PyStr.

(* ================================================================= *)
(** ** Python floats *)

(** A Python [float] is an IEEE-754 binary64 number: the primitive [float]
    of Rocq.  [round(x, 1)] goes through the exact value of [x]: CPython
    prints [x] correctly rounded to one decimal (ties to even on the exact
    binary value) and reads that decimal back as the nearest double. *)
Module PyFloat.

(** The integer nearest to [m * 2^e * 10], ties to even. *)
Definition tenths (m e : Z) : Z :=
  if 0 <=? e then 10 * m * 2 ^ e
  else
    let d := 2 ^ (- e) in
    let q := (10 * m) / d in
    let r := (10 * m) mod d in
    match 2 * r ?= d with
    | Lt => q
    | Gt => q + 1
    | Eq => if Z.even q then q else q + 1
    end.

(** The double nearest to [n / 10], with the sign [s]. *)
Definition of_tenths (s : bool) (n : Z) : spec_float :=
  match n with
  | Zpos p => SFdiv prec emax (S754_finite s p 0) (S754_finite false 10 0)
  | _ => S754_zero s
  end.

(** [round(x, 1)]: zeros, infinities and NaN round to themselves. *)
Definition round1 (x : float) : float :=
  match Prim2SF x with
  | S754_finite s m e => SF2Prim (of_tenths s (tenths (Zpos m) e))
  | _ => x
  end.

(** [float(z)] for a Python [int]: the nearest double, or [None] where
    Python raises [OverflowError]. *)
Definition of_int (z : Z) : option float :=
  match binary_normalize prec emax z 0 false with
  | S754_infinity _ => None
  | sf => Some (SF2Prim sf)
  end.

(** The constant of line 52. *)
Definition kelvin_offset : float := 273.15%float.

End PyFloat.

(* ================================================================= *)
(** ** Exceptions and results *)

(** The index of a subscript [v[i]]: a string key or an integer position. *)
Inductive subscript :=
| SKey (k : string)
| SIdx (i : Z).

(** The Python exceptions the module can meet.  [ClientError] stands for
    [aiohttp.ClientError] and its subclasses, [APIError] for the errors of
    the language-model client; both carry the text of the error. *)
Inductive exc :=
| KeyError (key : subscript)
| IndexError
| TypeError
| NameError (name : string)
| SyntaxError
| OverflowError
| EOFError
| JSONDecodeError
| ClientError (msg : string)
| APIError (msg : string).

(** A computation that returns a value or raises. *)
Inductive result (A : Type) :=
| Ok (a : A)
| Raise (e : exc).
Arguments Ok {A} a.
Arguments Raise {A} e.

Definition rbind {A B} (r : result A) (k : A -> result B) : result B :=
  match r with
  | Ok a => k a
  | Raise e => Raise e
  end.

Notation "'let?' x ':=' r 'in' k" := (rbind r (fun x => k))
  (at level 10, x name, r at level 100, k at level 200).

(** The error kinds of the specification, as far as the exception alone
    decides them: an answer of the provider that does not have the expected
    shape is an upstream-data error, a failed transfer a connectivity
    error. *)
Definition upstream_data_error (e : exc) : bool :=
  match e with
  | KeyError _ | IndexError | TypeError | OverflowError | JSONDecodeError => true
  | _ => false
  end.

Definition connectivity_error (e : exc) : bool :=
  match e with
  | ClientError _ => true
  | _ => false
  end.

(* ================================================================= *)
(** ** JSON values *)

(** The Python object built by [resp.json()].  A JSON object is a [dict]
    with string keys, kept as an association list whose keys are distinct
    (the decoder keeps the last of two equal keys). *)
Module Json.

Inductive json :=
| JNull
| JBool (b : bool)
| JInt (z : Z)
| JFloat (f : float)
| JStr (s : string)
| JList (items : list json)
| JDict (items : list (string * json)).

Fixpoint dict_get {A} (d : list (string * A)) (k : string) : option A :=
  match d with
  | [] => None
  | (k', v) :: rest => if String.eqb k' k then Some v else dict_get rest k
  end.

(** [l[i]] on a sequence: negative positions count from the end. *)
Definition seq_get {A} (l : list A) (i : Z) : option A :=
  let n := Z.of_nat (List.length l) in
  if (0 <=? i) && (i <? n) then nth_error l (Z.to_nat i)
  else if (- n <=? i) && (i <? 0) then nth_error l (Z.to_nat (n + i))
  else None.

(** [v[i]] *)
Definition getitem (v : json) (i : subscript) : result json :=
  match v, i with
  | JDict d, SKey k =>
      match dict_get d k with
      | Some x => Ok x
      | None => Raise (KeyError i)
      end
  | JDict _, SIdx _ => Raise (KeyError i)
  | JList l, SIdx n =>
      match seq_get l n with
      | Some x => Ok x
      | None => Raise IndexError
      end
  | JStr s, SIdx n =>
      match seq_get (list_ascii_of_string s) n with
      | Some c => Ok (JStr (String c EmptyString))
      | None => Raise IndexError
      end
  | _, _ => Raise TypeError
  end.

End Json.

(* ================================================================= *)
(** ** The body of [fetch_weather_from_api] *)

Module Weather.
Import Json.

(** The dictionary returned at line 55:
    [{"conditions": conditions, "temperature": round(temp, 1)}]. *)
Record weather_data := {
  conditions : json;
  temperature : float
}.

(** [float(v)] as the subtraction of line 52 coerces its left operand:
    a [float] as it is, an [int] or a [bool] converted. *)
Definition to_float (v : json) : result float :=
  match v with
  | JFloat f => Ok f
  | JInt z =>
      match PyFloat.of_int z with
      | Some f => Ok f
      | None => Raise OverflowError
      end
  | JBool b => Ok (if b then 1%float else 0%float)
  | _ => Raise TypeError
  end.

(** [temp_k - 273.15] *)
Definition kelvin_to_celsius (temp_k : json) : result float :=
  let? k := to_float temp_k in
  Ok (PrimFloat.sub k PyFloat.kelvin_offset).

(** Lines 51 to 55, on the decoded answer [data]. *)
Definition weather_of_response (data : json) : result weather_data :=
  let? main := getitem data (SKey "main") in
  let? temp_k := getitem main (SKey "temp") in
  let? temp := kelvin_to_celsius temp_k in
  let? weather := getitem data (SKey "weather") in
  let? first := getitem weather (SIdx 0) in
  let? conditions := getitem first (SKey "description") in
  Ok {| conditions := conditions; temperature := PyFloat.round1 temp |}.

End Weather.

(* ================================================================= *)
(** ** Python strings, all code points *)

(** The console hands the loop any text: a sequence of Unicode code
    points.  This module holds [str.strip] and [str.lower] on all of them,
    with the tables of Unicode 14.0 that CPython 3.11 carries, and lines 86
    to 116 of [chat_with_bot] on such text: the part of an iteration that
    reads the line, strips it, compares it with [quit], appends the user
    message and calls the model.  The module [Chat] below spells out the
    whole iteration on the text that [PyStr] holds. *)
Module Wide.

Local Open Scope list_scope.

(** A [str]: its code points, in order. *)
Definition text := list Z.

(** A literal of the program. *)
Definition of_string (s : string) : text :=
  map (fun c => Z.of_N (N_of_ascii c)) (list_ascii_of_string s).

Fixpoint eqb (a b : text) : bool :=
  match a, b with
  | [], [] => true
  | x :: a', y :: b' => (x =? y) && eqb a' b'
  | _, _ => false
  end.

(** [str.isspace] on one code point, which is what [strip] removes: the
    characters of bidirectional class WS, B or S and of category Zs.
    TAB..CR, FS..US, SPACE, NEL, NBSP, OGHAM SPACE MARK, EN QUAD..HAIR
    SPACE, LINE and PARAGRAPH SEPARATOR, NARROW NO-BREAK SPACE, MEDIUM
    MATHEMATICAL SPACE, IDEOGRAPHIC SPACE. *)
Definition isspace (c : Z) : bool :=
  (9 <=? c) && (c <=? 13) || (28 <=? c) && (c <=? 32)
  || (c =? 133) || (c =? 160) || (c =? 5760)
  || (8192 <=? c) && (c <=? 8202)
  || (c =? 8232) || (c =? 8233) || (c =? 8239) || (c =? 8287)
  || (c =? 12288).

Fixpoint lstrip (s : text) : text :=
  match s with
  | [] => []
  | c :: t => if isspace c then lstrip t else s
  end.

Fixpoint rstrip (s : text) : text :=
  match s with
  | [] => []
  | c :: t =>
      match rstrip t with
      | [] => if isspace c then [] else [c]
      | t' => c :: t'
      end
  end.

(** [s.strip()] *)
Definition strip (s : text) : text := rstrip (lstrip s).

(** Every code point of [s] is white space. *)
Definition all_space (s : text) : bool := forallb isspace s.

(** [s] is empty, or neither its first nor its last code point is white
    space. *)
Definition clean (s : text) : bool :=
  match s with
  | [] => true
  | c :: _ => negb (isspace c) && negb (isspace (last s 0))
  end.

(** The simple lower-case mapping of Unicode 14.0, the version of the
    tables of CPython 3.11: [(lo, hi, step, delta)] moves the code points
    [lo], [lo + step], .. up to [hi] by [delta]. *)
Definition lowercase_table : list (Z * Z * Z * Z) :=
  [(65, 90, 1, 32); (192, 214, 1, 32); (216, 222, 1, 32); (256, 302, 2, 1);
   (306, 310, 2, 1); (313, 327, 2, 1); (330, 374, 2, 1); (376, 376, 1, -121);
   (377, 381, 2, 1); (385, 385, 1, 210); (386, 388, 2, 1); (390, 390, 1, 206);
   (391, 391, 1, 1); (393, 394, 1, 205); (395, 395, 1, 1); (398, 398, 1, 79);
   (399, 399, 1, 202); (400, 400, 1, 203); (401, 401, 1, 1);
   (403, 403, 1, 205); (404, 404, 1, 207); (406, 406, 1, 211);
   (407, 407, 1, 209); (408, 408, 1, 1); (412, 412, 1, 211);
   (413, 413, 1, 213); (415, 415, 1, 214); (416, 420, 2, 1);
   (422, 422, 1, 218); (423, 423, 1, 1); (425, 425, 1, 218); (428, 428, 1, 1);
   (430, 430, 1, 218); (431, 431, 1, 1); (433, 434, 1, 217); (435, 437, 2, 1);
   (439, 439, 1, 219); (440, 440, 1, 1); (444, 444, 1, 1); (452, 452, 1, 2);
   (453, 453, 1, 1); (455, 455, 1, 2); (456, 456, 1, 1); (458, 458, 1, 2);
   (459, 475, 2, 1); (478, 494, 2, 1); (497, 497, 1, 2); (498, 500, 2, 1);
   (502, 502, 1, -97); (503, 503, 1, -56); (504, 542, 2, 1);
   (544, 544, 1, -130); (546, 562, 2, 1); (570, 570, 1, 10795);
   (571, 571, 1, 1); (573, 573, 1, -163); (574, 574, 1, 10792);
   (577, 577, 1, 1); (579, 579, 1, -195); (580, 580, 1, 69);
   (581, 581, 1, 71); (582, 590, 2, 1); (880, 882, 2, 1); (886, 886, 1, 1);
   (895, 895, 1, 116); (902, 902, 1, 38); (904, 906, 1, 37);
   (908, 908, 1, 64); (910, 911, 1, 63); (913, 929, 1, 32); (931, 939, 1, 32);
   (975, 975, 1, 8); (984, 1006, 2, 1); (1012, 1012, 1, -60);
   (1015, 1015, 1, 1); (1017, 1017, 1, -7); (1018, 1018, 1, 1);
   (1021, 1023, 1, -130); (1024, 1039, 1, 80); (1040, 1071, 1, 32);
   (1120, 1152, 2, 1); (1162, 1214, 2, 1); (1216, 1216, 1, 15);
   (1217, 1229, 2, 1); (1232, 1326, 2, 1); (1329, 1366, 1, 48);
   (4256, 4293, 1, 7264); (4295, 4295, 1, 7264); (4301, 4301, 1, 7264);
   (5024, 5103, 1, 38864); (5104, 5109, 1, 8); (7312, 7354, 1, -3008);
   (7357, 7359, 1, -3008); (7680, 7828, 2, 1); (7838, 7838, 1, -7615);
   (7840, 7934, 2, 1); (7944, 7951, 1, -8); (7960, 7965, 1, -8);
   (7976, 7983, 1, -8); (7992, 7999, 1, -8); (8008, 8013, 1, -8);
   (8025, 8031, 2, -8); (8040, 8047, 1, -8); (8072, 8079, 1, -8);
   (8088, 8095, 1, -8); (8104, 8111, 1, -8); (8120, 8121, 1, -8);
   (8122, 8123, 1, -74); (8124, 8124, 1, -9); (8136, 8139, 1, -86);
   (8140, 8140, 1, -9); (8152, 8153, 1, -8); (8154, 8155, 1, -100);
   (8168, 8169, 1, -8); (8170, 8171, 1, -112); (8172, 8172, 1, -7);
   (8184, 8185, 1, -128); (8186, 8187, 1, -126); (8188, 8188, 1, -9);
   (8486, 8486, 1, -7517); (8490, 8490, 1, -8383); (8491, 8491, 1, -8262);
   (8498, 8498, 1, 28); (8544, 8559, 1, 16); (8579, 8579, 1, 1);
   (9398, 9423, 1, 26); (11264, 11311, 1, 48); (11360, 11360, 1, 1);
   (11362, 11362, 1, -10743); (11363, 11363, 1, -3814);
   (11364, 11364, 1, -10727); (11367, 11371, 2, 1); (11373, 11373, 1, -10780);
   (11374, 11374, 1, -10749); (11375, 11375, 1, -10783);
   (11376, 11376, 1, -10782); (11378, 11378, 1, 1); (11381, 11381, 1, 1);
   (11390, 11391, 1, -10815); (11392, 11490, 2, 1); (11499, 11501, 2, 1);
   (11506, 11506, 1, 1); (42560, 42604, 2, 1); (42624, 42650, 2, 1);
   (42786, 42798, 2, 1); (42802, 42862, 2, 1); (42873, 42875, 2, 1);
   (42877, 42877, 1, -35332); (42878, 42886, 2, 1); (42891, 42891, 1, 1);
   (42893, 42893, 1, -42280); (42896, 42898, 2, 1); (42902, 42920, 2, 1);
   (42922, 42922, 1, -42308); (42923, 42923, 1, -42319);
   (42924, 42924, 1, -42315); (42925, 42925, 1, -42305);
   (42926, 42926, 1, -42308); (42928, 42928, 1, -42258);
   (42929, 42929, 1, -42282); (42930, 42930, 1, -42261);
   (42931, 42931, 1, 928); (42932, 42946, 2, 1); (42948, 42948, 1, -48);
   (42949, 42949, 1, -42307); (42950, 42950, 1, -35384); (42951, 42953, 2, 1);
   (42960, 42960, 1, 1); (42966, 42968, 2, 1); (42997, 42997, 1, 1);
   (65313, 65338, 1, 32); (66560, 66599, 1, 40); (66736, 66771, 1, 40);
   (66928, 66938, 1, 39); (66940, 66954, 1, 39); (66956, 66962, 1, 39);
   (66964, 66965, 1, 39); (68736, 68786, 1, 64); (71840, 71871, 1, 32);
   (93760, 93791, 1, 32); (125184, 125217, 1, 34)].

(** The code points with the property Case_Ignorable, as ranges
    [(lo, hi)]. *)
Definition case_ignorable_table : list (Z * Z) :=
  [(39, 39); (46, 46); (58, 58); (94, 94); (96, 96); (168, 168); (173, 173);
   (175, 175); (180, 180); (183, 184); (688, 879); (884, 885); (890, 890);
   (900, 901); (903, 903); (1155, 1161); (1369, 1369); (1375, 1375);
   (1425, 1469); (1471, 1471); (1473, 1474); (1476, 1477); (1479, 1479);
   (1524, 1524); (1536, 1541); (1552, 1562); (1564, 1564); (1600, 1600);
   (1611, 1631); (1648, 1648); (1750, 1757); (1759, 1768); (1770, 1773);
   (1807, 1807); (1809, 1809); (1840, 1866); (1958, 1968); (2027, 2037);
   (2042, 2042); (2045, 2045); (2070, 2093); (2137, 2139); (2184, 2184);
   (2192, 2193); (2200, 2207); (2249, 2306); (2362, 2362); (2364, 2364);
   (2369, 2376); (2381, 2381); (2385, 2391); (2402, 2403); (2417, 2417);
   (2433, 2433); (2492, 2492); (2497, 2500); (2509, 2509); (2530, 2531);
   (2558, 2558); (2561, 2562); (2620, 2620); (2625, 2626); (2631, 2632);
   (2635, 2637); (2641, 2641); (2672, 2673); (2677, 2677); (2689, 2690);
   (2748, 2748); (2753, 2757); (2759, 2760); (2765, 2765); (2786, 2787);
   (2810, 2815); (2817, 2817); (2876, 2876); (2879, 2879); (2881, 2884);
   (2893, 2893); (2901, 2902); (2914, 2915); (2946, 2946); (3008, 3008);
   (3021, 3021); (3072, 3072); (3076, 3076); (3132, 3132); (3134, 3136);
   (3142, 3144); (3146, 3149); (3157, 3158); (3170, 3171); (3201, 3201);
   (3260, 3260); (3263, 3263); (3270, 3270); (3276, 3277); (3298, 3299);
   (3328, 3329); (3387, 3388); (3393, 3396); (3405, 3405); (3426, 3427);
   (3457, 3457); (3530, 3530); (3538, 3540); (3542, 3542); (3633, 3633);
   (3636, 3642); (3654, 3662); (3761, 3761); (3764, 3772); (3782, 3782);
   (3784, 3789); (3864, 3865); (3893, 3893); (3895, 3895); (3897, 3897);
   (3953, 3966); (3968, 3972); (3974, 3975); (3981, 3991); (3993, 4028);
   (4038, 4038); (4141, 4144); (4146, 4151); (4153, 4154); (4157, 4158);
   (4184, 4185); (4190, 4192); (4209, 4212); (4226, 4226); (4229, 4230);
   (4237, 4237); (4253, 4253); (4348, 4348); (4957, 4959); (5906, 5908);
   (5938, 5939); (5970, 5971); (6002, 6003); (6068, 6069); (6071, 6077);
   (6086, 6086); (6089, 6099); (6103, 6103); (6109, 6109); (6155, 6159);
   (6211, 6211); (6277, 6278); (6313, 6313); (6432, 6434); (6439, 6440);
   (6450, 6450); (6457, 6459); (6679, 6680); (6683, 6683); (6742, 6742);
   (6744, 6750); (6752, 6752); (6754, 6754); (6757, 6764); (6771, 6780);
   (6783, 6783); (6823, 6823); (6832, 6862); (6912, 6915); (6964, 6964);
   (6966, 6970); (6972, 6972); (6978, 6978); (7019, 7027); (7040, 7041);
   (7074, 7077); (7080, 7081); (7083, 7085); (7142, 7142); (7144, 7145);
   (7149, 7149); (7151, 7153); (7212, 7219); (7222, 7223); (7288, 7293);
   (7376, 7378); (7380, 7392); (7394, 7400); (7405, 7405); (7412, 7412);
   (7416, 7417); (7468, 7530); (7544, 7544); (7579, 7679); (8125, 8125);
   (8127, 8129); (8141, 8143); (8157, 8159); (8173, 8175); (8189, 8190);
   (8203, 8207); (8216, 8217); (8228, 8228); (8231, 8231); (8234, 8238);
   (8288, 8292); (8294, 8303); (8305, 8305); (8319, 8319); (8336, 8348);
   (8400, 8432); (11388, 11389); (11503, 11505); (11631, 11631);
   (11647, 11647); (11744, 11775); (11823, 11823); (12293, 12293);
   (12330, 12333); (12337, 12341); (12347, 12347); (12441, 12446);
   (12540, 12542); (40981, 40981); (42232, 42237); (42508, 42508);
   (42607, 42610); (42612, 42621); (42623, 42623); (42652, 42655);
   (42736, 42737); (42752, 42785); (42864, 42864); (42888, 42890);
   (42994, 42996); (43000, 43001); (43010, 43010); (43014, 43014);
   (43019, 43019); (43045, 43046); (43052, 43052); (43204, 43205);
   (43232, 43249); (43263, 43263); (43302, 43309); (43335, 43345);
   (43392, 43394); (43443, 43443); (43446, 43449); (43452, 43453);
   (43471, 43471); (43493, 43494); (43561, 43566); (43569, 43570);
   (43573, 43574); (43587, 43587); (43596, 43596); (43632, 43632);
   (43644, 43644); (43696, 43696); (43698, 43700); (43703, 43704);
   (43710, 43711); (43713, 43713); (43741, 43741); (43756, 43757);
   (43763, 43764); (43766, 43766); (43867, 43871); (43881, 43883);
   (44005, 44005); (44008, 44008); (44013, 44013); (64286, 64286);
   (64434, 64450); (65024, 65039); (65043, 65043); (65056, 65071);
   (65106, 65106); (65109, 65109); (65279, 65279); (65287, 65287);
   (65294, 65294); (65306, 65306); (65342, 65342); (65344, 65344);
   (65392, 65392); (65438, 65439); (65507, 65507); (65529, 65531);
   (66045, 66045); (66272, 66272); (66422, 66426); (67456, 67461);
   (67463, 67504); (67506, 67514); (68097, 68099); (68101, 68102);
   (68108, 68111); (68152, 68154); (68159, 68159); (68325, 68326);
   (68900, 68903); (69291, 69292); (69446, 69456); (69506, 69509);
   (69633, 69633); (69688, 69702); (69744, 69744); (69747, 69748);
   (69759, 69761); (69811, 69814); (69817, 69818); (69821, 69821);
   (69826, 69826); (69837, 69837); (69888, 69890); (69927, 69931);
   (69933, 69940); (70003, 70003); (70016, 70017); (70070, 70078);
   (70089, 70092); (70095, 70095); (70191, 70193); (70196, 70196);
   (70198, 70199); (70206, 70206); (70367, 70367); (70371, 70378);
   (70400, 70401); (70459, 70460); (70464, 70464); (70502, 70508);
   (70512, 70516); (70712, 70719); (70722, 70724); (70726, 70726);
   (70750, 70750); (70835, 70840); (70842, 70842); (70847, 70848);
   (70850, 70851); (71090, 71093); (71100, 71101); (71103, 71104);
   (71132, 71133); (71219, 71226); (71229, 71229); (71231, 71232);
   (71339, 71339); (71341, 71341); (71344, 71349); (71351, 71351);
   (71453, 71455); (71458, 71461); (71463, 71467); (71727, 71735);
   (71737, 71738); (71995, 71996); (71998, 71998); (72003, 72003);
   (72148, 72151); (72154, 72155); (72160, 72160); (72193, 72202);
   (72243, 72248); (72251, 72254); (72263, 72263); (72273, 72278);
   (72281, 72283); (72330, 72342); (72344, 72345); (72752, 72758);
   (72760, 72765); (72767, 72767); (72850, 72871); (72874, 72880);
   (72882, 72883); (72885, 72886); (73009, 73014); (73018, 73018);
   (73020, 73021); (73023, 73029); (73031, 73031); (73104, 73105);
   (73109, 73109); (73111, 73111); (73459, 73460); (78896, 78904);
   (92912, 92916); (92976, 92982); (92992, 92995); (94031, 94031);
   (94095, 94111); (94176, 94177); (94179, 94180); (110576, 110579);
   (110581, 110587); (110589, 110590); (113821, 113822); (113824, 113827);
   (118528, 118573); (118576, 118598); (119143, 119145); (119155, 119170);
   (119173, 119179); (119210, 119213); (119362, 119364); (121344, 121398);
   (121403, 121452); (121461, 121461); (121476, 121476); (121499, 121503);
   (121505, 121519); (122880, 122886); (122888, 122904); (122907, 122913);
   (122915, 122916); (122918, 122922); (123184, 123197); (123566, 123566);
   (123628, 123631); (125136, 125142); (125252, 125259); (127995, 127999);
   (917505, 917505); (917536, 917631); (917760, 917999)].

(** The code points with the property Cased, as ranges [(lo, hi)]. *)
Definition cased_table : list (Z * Z) :=
  [(65, 90); (97, 122); (170, 170); (181, 181); (186, 186); (192, 214);
   (216, 246); (248, 442); (444, 447); (452, 659); (661, 696); (704, 705);
   (736, 740); (837, 837); (880, 883); (886, 887); (890, 893); (895, 895);
   (902, 902); (904, 906); (908, 908); (910, 929); (931, 1013); (1015, 1153);
   (1162, 1327); (1329, 1366); (1376, 1416); (4256, 4293); (4295, 4295);
   (4301, 4301); (4304, 4346); (4349, 4351); (5024, 5109); (5112, 5117);
   (7296, 7304); (7312, 7354); (7357, 7359); (7424, 7615); (7680, 7957);
   (7960, 7965); (7968, 8005); (8008, 8013); (8016, 8023); (8025, 8025);
   (8027, 8027); (8029, 8029); (8031, 8061); (8064, 8116); (8118, 8124);
   (8126, 8126); (8130, 8132); (8134, 8140); (8144, 8147); (8150, 8155);
   (8160, 8172); (8178, 8180); (8182, 8188); (8305, 8305); (8319, 8319);
   (8336, 8348); (8450, 8450); (8455, 8455); (8458, 8467); (8469, 8469);
   (8473, 8477); (8484, 8484); (8486, 8486); (8488, 8488); (8490, 8493);
   (8495, 8500); (8505, 8505); (8508, 8511); (8517, 8521); (8526, 8526);
   (8544, 8575); (8579, 8580); (9398, 9449); (11264, 11492); (11499, 11502);
   (11506, 11507); (11520, 11557); (11559, 11559); (11565, 11565);
   (42560, 42605); (42624, 42653); (42786, 42887); (42891, 42894);
   (42896, 42954); (42960, 42961); (42963, 42963); (42965, 42969);
   (42997, 42998); (43000, 43002); (43824, 43866); (43868, 43880);
   (43888, 43967); (64256, 64262); (64275, 64279); (65313, 65338);
   (65345, 65370); (66560, 66639); (66736, 66771); (66776, 66811);
   (66928, 66938); (66940, 66954); (66956, 66962); (66964, 66965);
   (66967, 66977); (66979, 66993); (66995, 67001); (67003, 67004);
   (67456, 67456); (67459, 67461); (67463, 67504); (67506, 67514);
   (68736, 68786); (68800, 68850); (71840, 71903); (93760, 93823);
   (119808, 119892); (119894, 119964); (119966, 119967); (119970, 119970);
   (119973, 119974); (119977, 119980); (119982, 119993); (119995, 119995);
   (119997, 120003); (120005, 120069); (120071, 120074); (120077, 120084);
   (120086, 120092); (120094, 120121); (120123, 120126); (120128, 120132);
   (120134, 120134); (120138, 120144); (120146, 120485); (120488, 120512);
   (120514, 120538); (120540, 120570); (120572, 120596); (120598, 120628);
   (120630, 120654); (120656, 120686); (120688, 120712); (120714, 120744);
   (120746, 120770); (120772, 120779); (122624, 122633); (122635, 122654);
   (125184, 125251); (127280, 127305); (127312, 127337); (127344, 127369)].

(** [c] lies in one of the ranges of [t]. *)
Definition in_ranges (t : list (Z * Z)) (c : Z) : bool :=
  existsb (fun r => (fst r <=? c) && (c <=? snd r)) t.

Definition is_case_ignorable (c : Z) : bool := in_ranges case_ignorable_table c.

Definition is_cased (c : Z) : bool := in_ranges cased_table c.

(** The offset of [c] in the table [t]: that of the first entry that
    holds [c], and none when no entry does. *)
Fixpoint offset (t : list (Z * Z * Z * Z)) (c : Z) : Z :=
  match t with
  | [] => 0
  | (lo, hi, step, delta) :: rest =>
      if (lo <=? c) && (c <=? hi) && ((c - lo) mod step =? 0) then delta
      else offset rest c
  end.

(** The lower-case mapping of one code point to one code point. *)
Definition tolower (c : Z) : Z := c + offset lowercase_table c.

(** The full lower-case mapping of one code point: U+0130, the capital I
    with a dot above, is the one code point that maps to two, [i] and the
    combining dot above. *)
Definition tolower_full (c : Z) : text :=
  if c =? 304 then [105; 775] else [tolower c].

Fixpoint skip_ignorable (s : text) : text :=
  match s with
  | [] => []
  | c :: t => if is_case_ignorable c then skip_ignorable t else s
  end.

(** A capital sigma is final when a cased letter comes before it and none
    comes after it, case-ignorable code points set aside on both sides.
    [before] holds the code points before the sigma, the nearest first. *)
Definition final_sigma (before after : text) : bool :=
  match skip_ignorable before with
  | [] => false
  | c :: _ =>
      is_cased c
      && match skip_ignorable after with
         | [] => true
         | c' :: _ => negb (is_cased c')
         end
  end.

(** What [lower] writes for the code point [c] that stands between
    [before] and [after]. *)
Definition lower_at (before : text) (c : Z) (after : text) : text :=
  if c =? 931 then [if final_sigma before after then 962 else 963]
  else tolower_full c.

Fixpoint lower_from (before s : text) : text :=
  match s with
  | [] => []
  | c :: t => lower_at before c t ++ lower_from (c :: before) t
  end.

(** [s.lower()] *)
Definition lower (s : text) : text := lower_from [] s.

(** *** Lines 86 to 116 of [chat_with_bot] *)

Inductive content :=
| Str (s : text)
| PyNone.

(** One entry of [messages]. *)
Record message := {
  role : string;
  name : option string;
  content_of : content
}.

(** [response.choices[0].message]: its text, and the name and the
    argument payload of the function call when there is one. *)
Record reply := {
  reply_content : option text;
  reply_function_call : option (text * text)
}.

Inductive event :=
| Input (prompt : string) (line : option text)
| Print (out : text)
| ModelCall (sent : list message) (functions : bool)
| HttpGet (url : text).

Record state := {
  messages : list message;
  trace : list event
}.

(** The language-model endpoint. *)
Definition model := list event -> list message -> bool -> result reply.

Definition M (A : Type) : Type := state -> result A * state.

Definition ret {A} (a : A) : M A := fun st => (Ok a, st).

Definition raise {A} (e : exc) : M A := fun st => (Raise e, st).

Definition bind {A B} (m : M A) (k : A -> M B) : M B :=
  fun st =>
    match m st with
    | (Ok a, st') => k a st'
    | (Raise e, st') => (Raise e, st')
    end.

Definition emit (e : event) : M unit :=
  fun st => (Ok tt, {| messages := messages st; trace := trace st ++ [e] |}).

Definition append (m : message) : M unit :=
  fun st => (Ok tt, {| messages := messages st ++ [m]; trace := trace st |}).

Definition print (out : string) : M unit := emit (Print (of_string out)).

Definition create (llm : model) (functions : bool) : M reply :=
  fun st =>
    (llm (trace st) (messages st) functions,
     {| messages := messages st;
        trace := trace st ++ [ModelCall (messages st) functions] |}).

Definition input (prompt : string) (line : option text) : M text :=
  bind (emit (Input prompt line))
       (fun _ => match line with
                 | Some l => ret l
                 | None => raise EOFError
                 end).

Inductive control := Continue | Break.

(** Lines 87 to 144: one iteration of the loop.  [respond] stands for lines
    118 to 144, which take the stripped line and the answer of the model
    and end without leaving the loop. *)
Definition iteration (llm : model) (respond : text -> reply -> M unit)
    (line : option text) : M control :=
  bind (input "You: " line) (fun raw =>
  let user_input := strip raw in
  if eqb (lower user_input) (of_string "quit") then
    bind (print "Chat Bot: Goodbye!") (fun _ => ret Break)
  else
    bind (append {| role := "user"; name := None;
                    content_of := Str user_input |}) (fun _ =>
    bind (create llm true) (fun response =>
    bind (respond user_input response) (fun _ =>
    ret Continue)))).

(** Lines 86 to 144: the loop, on the lines the console still holds. *)
Fixpoint chat_loop (llm : model) (respond : text -> reply -> M unit)
    (inputs : list text) : M unit :=
  match inputs with
  | [] => bind (iteration llm respond None) (fun _ => ret tt)
  | line :: rest =>
      bind (iteration llm respond (Some line)) (fun c =>
      match c with
      | Break => ret tt
      | Continue => chat_loop llm respond rest
      end)
  end.

(** The sixteen spellings of the quit command. *)
Definition quit_word (q : text) : bool :=
  match q with
  | [c1; c2; c3; c4] =>
      ((c1 =? 113) || (c1 =? 81)) && ((c2 =? 117) || (c2 =? 85))
      && ((c3 =? 105) || (c3 =? 73)) && ((c4 =? 116) || (c4 =? 84))
  | _ => false
  end.

(** The code points that [tolower] can take to [y]: [y] itself and what
    the entries of the table move onto it. *)
Definition candidates (y : Z) : list Z :=
  y :: map (fun r => y - snd r) lowercase_table.

End Wide.

(* ================================================================= *)
(** ** The conversation loop *)

Module Chat.
Import Json Weather PyStr.

(** *** Transcript *)

(** The [content] entry of a message: a string, [None] (a reply of the
    model without text), or [str(weather_data)], kept as the dictionary it
    renders. *)
Inductive content :=
| Str (s : string)
| PyNone
| StrOfWeather (w : weather_data).

(** One entry of [messages]: [{"role": .., "content": ..}], with a
    ["name"] entry on function results. *)
Record message := {
  role : string;
  name : option string;
  content_of : content
}.

Definition system_prompt : string :=
  "You are a helpful weather assistant. When users ask about weather, extract the location from the user's message and respond with weather information in Celsius.".

Definition greeting : string :=
  "Chat Bot: Hello! Ask me about the weather by typing the city name or something like (What's the weather like in Berlin). (Type 'quit' anytime to exit)".

Definition system_message : message :=
  {| role := "system"; name := None; content_of := Str system_prompt |}.

Definition user_message (user_input : string) : message :=
  {| role := "user"; name := None; content_of := Str user_input |}.

Definition function_message (w : weather_data) : message :=
  {| role := "function"; name := Some "fetch_weather_from_api";
     content_of := StrOfWeather w |}.

Definition text_content (c : option string) : content :=
  match c with
  | Some s => Str s
  | None => PyNone
  end.

Definition assistant_message (c : option string) : message :=
  {| role := "assistant"; name := None; content_of := text_content c |}.

(** *** Values and expressions of [eval] *)

(** The objects an evaluated argument payload can be. *)
Inductive pyval :=
| VNone
| VBool (b : bool)
| VInt (z : Z)
| VStr (s : string)
| VDict (items : list (string * pyval)).

(** The names a payload can mention: the local [user_input] of
    [chat_with_bot], and the three JSON literals, which no scope of the
    module binds. *)
Inductive ident :=
| id_user_input
| id_true
| id_false
| id_null.

Definition ident_text (x : ident) : string :=
  match x with
  | id_user_input => "user_input"
  | id_true => "true"
  | id_false => "false"
  | id_null => "null"
  end.

(** The argument payload [function_call.arguments] is a string; [eval]
    compiles it as a Python expression.  The embedding keeps the payload
    as that expression, over the part of the grammar below:
    string and integer literals, [True], [False], [None], names, a dict
    display with string-literal keys, [a or b], [print("..")] and
    [messages.clear()].  [ENotPython] is a payload outside Python's
    expression grammar. *)
Inductive pyexpr :=
| EStr (s : string)
| EInt (z : Z)
| ETrue
| EFalse
| ENone
| EName (x : ident)
| EDict (items : list (string * pyexpr))
| EOr (a b : pyexpr)
| EPrint (text : string)
| EMessagesClear
| ENotPython.

(** *** Replies of the language model *)

(** [message.function_call]: the model asks for a function. *)
Record function_call := {
  fc_name : string;
  arguments : pyexpr
}.

(** [response.choices[0].message] *)
Record reply := {
  reply_content : option string;
  reply_function_call : option function_call
}.

(** *** State, events and the outside world *)

(** What the run does to the outside, in the order it happens. *)
Inductive event :=
| Input (prompt : string) (line : option string)
| Print (text : string)
| ModelCall (sent : list message) (functions : bool)
| HttpGet (location : pyval).

(** The variable [messages] and the events so far. *)
Record state := {
  messages : list message;
  trace : list event
}.

(** The two endpoints.  Each answer may depend on everything that happened
    before; an endpoint that fails raises.  The provider's answer is the
    decoded body of the GET whose URL carries [location]. *)
Record world := {
  llm : list event -> list message -> bool -> result reply;
  provider : list event -> pyval -> result json
}.

(** *** The monad of the loop: state and exceptions *)

Definition M (A : Type) : Type := state -> result A * state.

Definition ret {A} (a : A) : M A := fun st => (Ok a, st).

Definition raise {A} (e : exc) : M A := fun st => (Raise e, st).

Definition bind {A B} (m : M A) (k : A -> M B) : M B :=
  fun st =>
    match m st with
    | (Ok a, st') => k a st'
    | (Raise e, st') => (Raise e, st')
    end.

Definition lift {A} (r : result A) : M A := fun st => (r, st).

Definition emit (e : event) : M unit :=
  fun st => (Ok tt, {| messages := messages st; trace := trace st ++ [e] |}).

(** [messages.append(m)] *)
Definition append (m : message) : M unit :=
  fun st => (Ok tt, {| messages := messages st ++ [m]; trace := trace st |}).

(** [messages.clear()] *)
Definition clear : M unit :=
  fun st => (Ok tt, {| messages := []; trace := trace st |}).

Definition print (text : string) : M unit := emit (Print text).

Notation "x <- m ;; k" := (bind m (fun x => k))
  (at level 61, m at next level, right associativity).
Notation "m ;; k" := (bind m (fun _ => k))
  (at level 61, right associativity).

(** *** [eval(assistant_message.function_call.arguments)] *)

(** [d[k] = v] on a dict: a new key goes to the end, a known key keeps
    its place. *)
Fixpoint dict_set {A} (d : list (string * A)) (k : string) (v : A)
  : list (string * A) :=
  match d with
  | [] => [(k, v)]
  | (k', v') :: rest =>
      if String.eqb k' k then (k', v) :: rest
      else (k', v') :: dict_set rest k v
  end.

(** [bool(v)] *)
Definition truthy (v : pyval) : bool :=
  match v with
  | VNone => false
  | VBool b => b
  | VInt z => negb (z =? 0)
  | VStr s => negb (String.eqb s EmptyString)
  | VDict d => negb (Nat.eqb (List.length d) 0)
  end.

(** The items of a dict display, from left to right: each value is
    evaluated by [ev] and stored under its key. *)
Fixpoint display (ev : pyexpr -> M pyval) (items : list (string * pyexpr))
    (acc : list (string * pyval)) : M pyval :=
  match items with
  | [] => ret (VDict acc)
  | (k, e) :: rest =>
      v <- ev e;;
      display ev rest (dict_set acc k v)
  end.

(** The value of a payload, in the scope of [chat_with_bot]: the
    expression reads [user_input], writes to the console and reaches the
    list [messages] itself. *)
Fixpoint eval (user_input : string) (e : pyexpr) : M pyval :=
  match e with
  | EStr s => ret (VStr s)
  | EInt z => ret (VInt z)
  | ETrue => ret (VBool true)
  | EFalse => ret (VBool false)
  | ENone => ret VNone
  | EName id_user_input => ret (VStr user_input)
  | EName x => raise (NameError (ident_text x))
  | EDict items => display (eval user_input) items []
  | EOr a b =>
      va <- eval user_input a;;
      if truthy va then ret va else eval user_input b
  | EPrint text => print text;; ret VNone
  | EMessagesClear => clear;; ret VNone
  | ENotPython => raise SyntaxError
  end.

(** *** [fetch_weather_from_api] *)

(** Lines 41 to 55: one GET, then the body on the decoded answer. *)
Definition fetch_weather_from_api (w : world) (location : pyval)
  : M weather_data :=
  data <- (fun st =>
             (provider w (trace st) location,
              {| messages := messages st;
                 trace := trace st ++ [HttpGet location] |}));;
  lift (weather_of_response data).

(** The binding of [**function_args] to the one parameter [location]:
    the object must be a mapping, and its keys exactly [location]. *)
Definition bind_location (function_args : pyval) : result pyval :=
  match function_args with
  | VDict d =>
      match dict_get d "location" with
      | Some location =>
          if Nat.eqb (List.length d) 1 then Ok location else Raise TypeError
      | None => Raise TypeError
      end
  | _ => Raise TypeError
  end.

(** *** [chat_with_bot] *)

(** [client.chat.completions.create(model=.., messages=messages, ..)]
    and [.choices[0].message] of its answer; [functions] tells whether the
    call carries the function schema and [function_call="auto"]. *)
Definition create (w : world) (functions : bool) : M reply :=
  fun st =>
    (llm w (trace st) (messages st) functions,
     {| messages := messages st;
        trace := trace st ++ [ModelCall (messages st) functions] |}).

(** [input(prompt)]: the next line of the console, [EOFError] at its end. *)
Definition input (prompt : string) (line : option string) : M string :=
  emit (Input prompt line);;
  match line with
  | Some l => ret l
  | None => raise EOFError
  end.

(** The rendering of [{content}] in an f-string. *)
Definition format_content (c : option string) : string :=
  match c with
  | Some s => s
  | None => "None"
  end.

(** How an iteration of [while True] ends. *)
Inductive control := Continue | Break.

(** Lines 87 to 144: one iteration of the loop. *)
Definition iteration (w : world) (line : option string) : M control :=
  raw <- input "You: " line;;
  let user_input := strip raw in
  if String.eqb (lower user_input) "quit" then
    print "Chat Bot: Goodbye!";;
    ret Break
  else
    append (user_message user_input);;
    response <- create w true;;
    match reply_function_call response with
    | Some fc =>
        function_args <- eval user_input (arguments fc);;
        location <- lift (bind_location function_args);;
        weather_data <- fetch_weather_from_api w location;;
        append (function_message weather_data);;
        second_response <- create w false;;
        print ("Chat Bot: " ++ format_content (reply_content second_response));;
        append (assistant_message (reply_content second_response));;
        ret Continue
    | None =>
        print ("Chat Bot: " ++ format_content (reply_content response));;
        append (assistant_message (reply_content response));;
        ret Continue
    end.

(** Lines 86 to 144: the loop, on the lines the console still holds. *)
Fixpoint chat_loop (w : world) (inputs : list string) : M unit :=
  match inputs with
  | [] => iteration w None;; ret tt
  | line :: rest =>
      c <- iteration w (Some line);;
      match c with
      | Break => ret tt
      | Continue => chat_loop w rest
      end
  end.

Definition initial : state := {| messages := [system_message]; trace := [] |}.

(** Lines 73 to 144, from the first line to the end of the session. *)
Definition chat_with_bot (w : world) (inputs : list string)
  : result unit * state :=
  (print greeting;; chat_loop w inputs) initial.

End Chat.

(* ================================================================= *)
(** ** Observations on a run *)

Module Observe.
Import Json Weather PyStr Chat.

(** The model calls of a trace, in order: what was sent, and whether the
    function schema went with it. *)
Fixpoint model_calls (tr : list event) : list (list message * bool) :=
  match tr with
  | [] => []
  | ModelCall sent functions :: rest => (sent, functions) :: model_calls rest
  | _ :: rest => model_calls rest
  end.

(** The weather lookups of a trace, in order. *)
Fixpoint weather_calls (tr : list event) : list pyval :=
  match tr with
  | [] => []
  | HttpGet location :: rest => location :: weather_calls rest
  | _ :: rest => weather_calls rest
  end.

(** The lines written to the console. *)
Fixpoint printed (tr : list event) : list string :=
  match tr with
  | [] => []
  | Print text :: rest => text :: printed rest
  | _ :: rest => printed rest
  end.

(** A payload that does not reach [messages]. *)
Fixpoint transcript_safe (e : pyexpr) : bool :=
  match e with
  | EMessagesClear => false
  | EDict items => forallb (fun kv => transcript_safe (snd kv)) items
  | EOr a b => transcript_safe a && transcript_safe b
  | _ => true
  end.

(** The state after [input] returned [line] and the user message was
    appended. *)
Definition read_line (line : string) (st : state) : state :=
  {| messages := messages st ++ [user_message (strip line)];
     trace := trace st ++ [Input "You: " (Some line)] |}.

(** The state after a model call was sent. *)
Definition sent (functions : bool) (st : state) : state :=
  {| messages := messages st;
     trace := trace st ++ [ModelCall (messages st) functions] |}.

(** The state after a lookup was sent. *)
Definition looked_up (location : pyval) (st : state) : state :=
  {| messages := messages st;
     trace := trace st ++ [HttpGet location] |}.

(** The state after the text [c] of a reply was printed and appended. *)
Definition answered (c : option string) (st : state) : state :=
  {| messages := messages st ++ [assistant_message c];
     trace := trace st ++ [Print ("Chat Bot: " ++ format_content c)] |}.

(** The state an iteration leaves when it reads [line] and breaks. *)
Definition after_quit (line : string) (st : state) : state :=
  {| messages := messages st;
     trace := trace st ++ [Input "You: " (Some line);
                           Print "Chat Bot: Goodbye!"] |}.

(** The state when the loop is entered: the system message, and the
    greeting on the console. *)
Definition greeted : state :=
  {| messages := [system_message]; trace := [Print greeting] |}.

(** An outbound call: to the model or to the weather provider. *)
Definition is_call (ev : event) : bool :=
  match ev with
  | ModelCall _ _ | HttpGet _ => true
  | _ => false
  end.

(** [turns w lines st st']: from [st], the loop reads [lines] one after the
    other, each iteration runs to its end and the loop goes on, and the
    state is then [st']. *)
Inductive turns (w : world) : list string -> state -> state -> Prop :=
| turns_nil st : turns w [] st st
| turns_cons line lines st st1 st2 :
    iteration w (Some line) st = (Ok Continue, st1) ->
    turns w lines st1 st2 ->
    turns w (line :: lines) st st2.

(** [endpoint_fails w line st e st']: in the iteration that reads [line]
    from [st], a call to the model or the weather lookup raises [e]; [st']
    is the state at that moment. *)
Inductive endpoint_fails (w : world) (line : string) (st : state)
  : exc -> state -> Prop :=
| first_call_fails e :
    llm w (trace (read_line line st)) (messages (read_line line st)) true
      = Raise e ->
    endpoint_fails w line st e (sent true (read_line line st))
| lookup_fails response fc function_args location st2 e st3 :
    llm w (trace (read_line line st)) (messages (read_line line st)) true
      = Ok response ->
    reply_function_call response = Some fc ->
    eval (strip line) (arguments fc) (sent true (read_line line st))
      = (Ok function_args, st2) ->
    bind_location function_args = Ok location ->
    fetch_weather_from_api w location st2 = (Raise e, st3) ->
    endpoint_fails w line st e st3
| second_call_fails response fc function_args location st2 wd st3 e :
    llm w (trace (read_line line st)) (messages (read_line line st)) true
      = Ok response ->
    reply_function_call response = Some fc ->
    eval (strip line) (arguments fc) (sent true (read_line line st))
      = (Ok function_args, st2) ->
    bind_location function_args = Ok location ->
    fetch_weather_from_api w location st2 = (Ok wd, st3) ->
    llm w (trace st3) (messages st3 ++ [function_message wd]) false
      = Raise e ->
    endpoint_fails w line st e
      (sent false {| messages := messages st3 ++ [function_message wd];
                     trace := trace st3 |}).

(** Lines 121 to 140: the branch taken on a function call. *)
Definition weather_branch (w : world) (user_input : string) (fc : function_call)
  : M control :=
  function_args <- eval user_input (arguments fc);;
  location <- lift (bind_location function_args);;
  weather_data <- fetch_weather_from_api w location;;
  append (function_message weather_data);;
  second_response <- create w false;;
  print ("Chat Bot: " ++ format_content (reply_content second_response));;
  append (assistant_message (reply_content second_response));;
  ret Continue.

(** Lines 124 to 140: what the branch does with the object the payload
    evaluated to. *)
Definition after_eval (w : world) (function_args : pyval) : M control :=
  location <- lift (bind_location function_args);;
  weather_data <- fetch_weather_from_api w location;;
  append (function_message weather_data);;
  second_response <- create w false;;
  print ("Chat Bot: " ++ format_content (reply_content second_response));;
  append (assistant_message (reply_content second_response));;
  ret Continue.

(** Lines 121 to 144: what an iteration does after the first model call
    returned. *)
Definition after_first_call (w : world) (user_input : string) (response : reply)
  : M control :=
  match reply_function_call response with
  | Some fc => weather_branch w user_input fc
  | None =>
      print ("Chat Bot: " ++ format_content (reply_content response));;
      append (assistant_message (reply_content response));;
      ret Continue
  end.

(** Every run of [m] takes a state to one related to it by [R]. *)
Definition respects (R : state -> state -> Prop) {A} (m : M A) : Prop :=
  forall st r st', m st = (r, st') -> R st st'.

(** The trace of [st'] is the trace of [st] and further events. *)
Definition trace_grows (st st' : state) : Prop :=
  exists tail, trace st' = (trace st ++ tail)%list.

(** As [trace_grows], and no further event is an outbound call. *)
Definition no_call (st st' : state) : Prop :=
  exists tail,
    trace st' = (trace st ++ tail)%list
    /\ Forall (fun ev => is_call ev = false) tail.

(** The transcript of [st'] is the transcript of [st] and further
    messages. *)
Definition transcript_grows (st st' : state) : Prop :=
  exists new, messages st' = (messages st ++ new)%list.

Definition same_transcript (st st' : state) : Prop :=
  messages st' = messages st.


(** Every payload the model sends leaves [messages] alone. *)
Definition safe_world (w : world) : Prop :=
  forall tr msgs response fc,
    llm w tr msgs true = Ok response ->
    reply_function_call response = Some fc ->
    transcript_safe (arguments fc) = true.



(** The messages of direct turns: for each line a user message with the
    stripped line, then an assistant message with the reply to it. *)
Definition exchanges (lines : list string) (replies : list (option string))
  : list message :=
  flat_map
    (fun lc =>
       [{| role := "user"; name := None; content_of := Str (strip (fst lc)) |};
        {| role := "assistant"; name := None;
           content_of := match snd lc with Some s => Str s | None => PyNone end |}])
    (combine lines replies).

(** [answered_directly w lines st replies]: in the session that reads
    [lines] from [st], the model answers the call of each turn without a
    function call; [replies] are the texts of its answers, turn by turn.
    The call of a turn is the one the loop makes: with the function schema,
    on the transcript extended by the user message. *)
Inductive answered_directly (w : world)
  : list string -> state -> list (option string) -> Prop :=
| answered_nil st : answered_directly w [] st []
| answered_cons line lines st c replies :
    llm w (trace st ++ [Input "You: " (Some line)])
          (messages st ++
             [{| role := "user"; name := None; content_of := Str (strip line) |}])
          true
      = Ok {| reply_content := c; reply_function_call := None |} ->
    answered_directly w lines (snd (iteration w (Some line) st)) replies ->
    answered_directly w (line :: lines) st (c :: replies).

(** A reply with text and no function call. *)
Definition direct (c : option string) : reply :=
  {| reply_content := c; reply_function_call := None |}.

(** A reply that asks for the weather lookup with the payload [e]. *)
Definition request (e : pyexpr) : reply :=
  {| reply_content := None;
     reply_function_call :=
       Some {| fc_name := "fetch_weather_from_api"; arguments := e |} |}.


(** [v[k]] where [v] is a dict that has the key. *)
Definition find (v : json) (k : string) : option json :=
  match v with
  | JDict d => dict_get d k
  | _ => None
  end.

(** The body has no entry [weather]. *)
Definition lacks_weather (data : json) : Prop :=
  find data "weather" = None.

(** The body has no entry [main], or [main] has no entry [temp]. *)
Definition lacks_main_temp (data : json) : Prop :=
  match find data "main" with
  | Some main => find main "temp" = None
  | None => True
  end.

(** The first entry of [weather] has no [description], or there is no
    first entry. *)
Definition lacks_description (data : json) : Prop :=
  match find data "weather" with
  | Some (JList (first :: _)) => find first "description" = None
  | _ => True
  end.

End Observe.

(* ================================================================= *)
(** ** Sample worlds *)

Module Sample.
Import Json Weather PyStr Chat Observe.

(** Both endpoints are down. *)
Definition silent_world : world :=
  {| llm := fun _ _ _ => Raise (APIError "connection refused");
     provider := fun _ _ => Raise (ClientError "connection refused") |}.

(** The model answers every call with the same text. *)
Definition chatty_world : world :=
  {| llm := fun _ _ _ => Ok (direct (Some "Ask me about the weather."));
     provider := fun _ _ => Raise (ClientError "connection refused") |}.

(** The model asks for the lookup with [payload] when it has the schema and
    answers with a text when it does not; the provider answers [body]. *)
Definition weather_world (payload : pyexpr) (body : result json) : world :=
  {| llm := fun _ _ functions =>
              if functions then Ok (request payload)
              else Ok (direct (Some "It is 27.0 degrees in Berlin."));
     provider := fun _ _ => body |}.

(** The model answers with a text as long as the transcript it is sent
    holds at most four messages, and asks for the lookup after that. *)
Definition moody_world : world :=
  {| llm := fun _ msgs _ =>
              if (List.length msgs <=? 4)%nat
              then Ok (direct (Some "Ask me about the weather."))
              else Ok (request (EDict [("location", EStr "Berlin")]));
     provider := fun _ _ => Raise (ClientError "connection refused") |}.

(** As [weather_world], but the second model call fails. *)
Definition rate_limited_world (payload : pyexpr) (body : result json) : world :=
  {| llm := fun _ _ functions =>
              if functions then Ok (request payload)
              else Raise (APIError "rate limit");
     provider := fun _ _ => body |}.

(** [{"main": {"temp": 300.15}, "weather": [{"description": "clear sky"}]}] *)
Definition berlin_body : json :=
  JDict [("main", JDict [("temp", JFloat 300.15%float)]);
         ("weather", JList [JDict [("description", JStr "clear sky")]])].

(** [{"main": {"temp": 300.15}}] *)
Definition no_weather_body : json :=
  JDict [("main", JDict [("temp", JFloat 300.15%float)])].

(** The provider's answer for an unknown place:
    [{"cod": "404", "message": "city not found"}]. *)
Definition not_found_body : json :=
  JDict [("cod", JStr "404"); ("message", JStr "city not found")].

(** [{"location": "Berlin"}] *)
Definition berlin_payload : pyexpr :=
  EDict [("location", EStr "Berlin")].

(** [{"location": "Berlin", "units": "metric"}] *)
Definition extra_key_payload : pyexpr :=
  EDict [("location", EStr "Berlin"); ("units", EStr "metric")].

(** [{"location": "Berlin", "detailed": true}] *)
Definition json_true_payload : pyexpr :=
  EDict [("location", EStr "Berlin"); ("detailed", EName id_true)].

(** [print("pwned") or {"location": "Berlin"}] *)
Definition printing_payload : pyexpr :=
  EOr (EPrint "pwned") berlin_payload.

(** [messages.clear() or {"location": "Berlin"}] *)
Definition clearing_payload : pyexpr :=
  EOr EMessagesClear berlin_payload.


End Sample.

(** Samples on text of all code points. *)
Module WideSample.

(** The model is down. *)
Definition silent : Wide.model :=
  fun _ _ _ => Raise (APIError "connection refused").

(** The model answers every call with the text [ok]. *)
Definition chatty : Wide.model :=
  fun _ _ _ =>
    Ok {| Wide.reply_content := Some (Wide.of_string "ok");
          Wide.reply_function_call := None |}.

(** Lines 141 to 144: the answer is printed and appended. *)
Definition answer_directly (user_input : Wide.text) (response : Wide.reply)
  : Wide.M unit :=
  Wide.bind (Wide.emit (Wide.Print (Wide.of_string "Chat Bot: ok")))
    (fun _ =>
       Wide.append
         {| Wide.role := "assistant"; Wide.name := None;
            Wide.content_of :=
              match Wide.reply_content response with
              | Some c => Wide.Str c
              | None => Wide.PyNone
              end |}).

Definition initial : Wide.state :=
  {| Wide.messages :=
       [{| Wide.role := "system"; Wide.name := None;
           Wide.content_of := Wide.Str (Wide.of_string "You are a helpful weather assistant.") |}];
     Wide.trace := [] |}.

(** [quit] in capitals between an em space (U+2003) and an ideographic
    space (U+3000). *)
Definition spaced_quit : Wide.text := [8195; 81; 85; 73; 84; 12288].

(** [Berlin] between a narrow no-break space (U+202F) and a line
    separator (U+2028). *)
Definition spaced_berlin : Wide.text :=
  [8239; 66; 101; 114; 108; 105; 110; 8232].

(** [QUİT], with the capital I with a dot above (U+0130). *)
Definition dotted_quit : Wide.text := [81; 85; 304; 84].

End WideSample.

(* ================================================================= *)
(** ** Further observations: sessions, budgets, payloads that are data *)

Module Behaviour.
Import Json Weather PyStr Chat Observe.

(** The state after [input] met the end of the console. *)
Definition at_eof (st : state) : state :=
  {| messages := messages st; trace := trace st ++ [Input "You: " None] |}.

(** The three ways a session on the lines [inputs] can end, from [st]:
    on the first line that is [quit], after turns that all ran to their
    end; at the end of the console; or in the first turn that raises. *)
Inductive session_end (w : world) (inputs : list string) (st : state)
  : result unit * state -> Prop :=
| ends_by_quit pre q post st0 :
    inputs = (pre ++ q :: post)%list ->
    turns w pre st st0 ->
    lower (strip q) = "quit" ->
    session_end w inputs st (Ok tt, after_quit q st0)
| ends_by_eof st0 :
    turns w inputs st st0 ->
    session_end w inputs st (Raise EOFError, at_eof st0)
| ends_by_error pre line post st0 e st' :
    inputs = (pre ++ line :: post)%list ->
    turns w pre st st0 ->
    lower (strip line) <> "quit" ->
    iteration w (Some line) st0 = (Raise e, st') ->
    session_end w inputs st (Raise e, st').


(** The lines the run read from the console. *)
Fixpoint lines_read (tr : list event) : list string :=
  match tr with
  | [] => []
  | Input _ (Some line) :: rest => line :: lines_read rest
  | _ :: rest => lines_read rest
  end.





(** [turn_payload P w line st]: if the turn on [line] from [st] gets as far
    as the evaluation of a payload, then [P] holds of what is evaluated:
    the stripped line, the payload, and the state at that moment. *)
Definition turn_payload (P : string -> pyexpr -> state -> Prop) (w : world)
    (line : string) (st : state) : Prop :=
  forall response fc,
    lower (strip line) <> "quit" ->
    llm w (trace (read_line line st)) (messages (read_line line st)) true
      = Ok response ->
    reply_function_call response = Some fc ->
    P (strip line) (arguments fc) (sent true (read_line line st)).

(** [payloads P w inputs st]: [P] holds of every payload that the session
    on [inputs] from [st] evaluates.  Only the turns the session runs
    count, each from the state the turns before it left. *)
Fixpoint payloads (P : string -> pyexpr -> state -> Prop) (w : world)
    (inputs : list string) (st : state) : Prop :=
  match inputs with
  | [] => True
  | line :: rest =>
      turn_payload P w line st
      /\ forall st1,
           iteration w (Some line) st = (Ok Continue, st1) ->
           payloads P w rest st1
  end.


(** A payload that is data: literals, and displays of data. *)
Fixpoint data_literal (e : pyexpr) : bool :=
  match e with
  | EStr _ | EInt _ | ETrue | EFalse | ENone => true
  | EDict items => forallb (fun kv => data_literal (snd kv)) items
  | _ => false
  end.

(** The payload is data. *)
Definition is_data : string -> pyexpr -> state -> Prop :=
  fun _ e _ => data_literal e = true.

(** An expression of Python: no part of it is outside the grammar. *)
Fixpoint python_expr (e : pyexpr) : bool :=
  match e with
  | ENotPython => false
  | EDict items => forallb (fun kv => python_expr (snd kv)) items
  | EOr a b => python_expr a && python_expr b
  | _ => true
  end.

(** The object a data payload denotes; the items of a display are stored
    from left to right. *)
Fixpoint literal_value (e : pyexpr) : pyval :=
  match e with
  | EStr s => VStr s
  | EInt z => VInt z
  | ETrue => VBool true
  | EFalse => VBool false
  | EDict items =>
      VDict (fold_left (fun acc kv => dict_set acc (fst kv) (snd kv))
               (map (fun kv => (fst kv, literal_value (snd kv))) items) [])
  | _ => VNone
  end.

(** The body [d] has a number [k] at [main.temp]. *)
Definition has_temperature (d : list (string * json)) (k : float) : Prop :=
  exists main temp_k,
    dict_get d "main" = Some main /\ find main "temp" = Some temp_k
    /\ to_float temp_k = Ok k.

End Behaviour.

(* ================================================================= *)
(** * Properties *)

Import PyStr PyFloat Json Weather Chat Observe Sample.

(** ** Strings *)

Lemma isspace_lower_char (c : ascii) : isspace (lower_char c) = isspace c.
Proof.
  destruct c as [[] [] [] [] [] [] [] []]; vm_compute; reflexivity.
Qed.

Lemma no_space_lower (s : string) : no_space (lower s) = no_space s.
Proof.
  induction s as [|c t IH]; simpl; [reflexivity|].
  now rewrite isspace_lower_char, IH.
Qed.

Lemma lstrip_no_space (s : string) : no_space s = true -> lstrip s = s.
Proof.
  destruct s as [|c t]; simpl; [reflexivity|].
  intros H. apply andb_prop in H as [H _].
  apply negb_true_iff in H. now rewrite H.
Qed.

Lemma rstrip_no_space (s : string) : no_space s = true -> rstrip s = s.
Proof.
  induction s as [|c t IH]; simpl; [reflexivity|].
  intros H. apply andb_prop in H as [Hc Ht].
  apply negb_true_iff in Hc. rewrite (IH Ht), Hc.
  now destruct t.
Qed.

Lemma strip_no_space (s : string) : no_space s = true -> strip s = s.
Proof.
  intros H. unfold strip. rewrite (lstrip_no_space s H).
  now apply rstrip_no_space.
Qed.

Lemma lower_quit_no_space (s : string) : lower s = "quit" -> no_space s = true.
Proof.
  intros H. rewrite <- no_space_lower, H. reflexivity.
Qed.


Lemma eqb_quit_false (s : string) : s <> "quit" -> String.eqb s "quit" = false.
Proof. intros H. now apply String.eqb_neq. Qed.

(** ** The monad *)

Local Open Scope list_scope.

Lemma bind_ok {A B} (m : M A) (k : A -> M B) (st st' : state) (a : A) :
  m st = (Ok a, st') -> bind m k st = k a st'.
Proof. intros H. unfold bind. now rewrite H. Qed.

Lemma bind_raise {A B} (m : M A) (k : A -> M B) (st st' : state) (e : exc) :
  m st = (Raise e, st') -> bind m k st = (Raise e, st').
Proof. intros H. unfold bind. now rewrite H. Qed.

Lemma bind_inv {A B} (m : M A) (k : A -> M B) (st st' : state) (r : result B) :
  bind m k st = (r, st') ->
  (exists e, m st = (Raise e, st') /\ r = Raise e) \/
  (exists a st1, m st = (Ok a, st1) /\ k a st1 = (r, st')).
Proof.
  unfold bind. destruct (m st) as [[a|e] st1]; intros H.
  - right. now exists a, st1.
  - left. exists e. now inversion H.
Qed.

(** Induction on payloads, with the items of a display. *)
Lemma pyexpr_induction (P : pyexpr -> Prop) :
  (forall s, P (EStr s)) -> (forall z, P (EInt z)) ->
  P ETrue -> P EFalse -> P ENone -> (forall x, P (EName x)) ->
  (forall items, Forall (fun kv => P (snd kv)) items -> P (EDict items)) ->
  (forall a b, P a -> P b -> P (EOr a b)) ->
  (forall t, P (EPrint t)) -> P EMessagesClear -> P ENotPython ->
  forall e, P e.
Proof.
  intros Hs Hi Ht Hf Hn Hx Hd Ho Hp Hc Hy.
  fix IH 1. intros [s|z| | | |x|items|a b|t| | ].
  - apply Hs.
  - apply Hi.
  - exact Ht.
  - exact Hf.
  - exact Hn.
  - apply Hx.
  - apply Hd. induction items as [|[k e] rest IHrest]; constructor.
    + simpl. apply IH.
    + exact IHrest.
  - apply Ho; apply IH.
  - apply Hp.
  - exact Hc.
  - exact Hy.
Qed.

(** Computations that respect a preorder on states. *)
Section Respects.

Variable R : state -> state -> Prop.
Hypothesis R_refl : forall st, R st st.
Hypothesis R_trans : forall a b c, R a b -> R b c -> R a c.

Lemma respects_ret {A} (a : A) : respects R (ret a).
Proof. intros st r st' H. inversion H; subst. apply R_refl. Qed.

Lemma respects_raise {A} (e : exc) : respects R (@raise A e).
Proof. intros st r st' H. inversion H; subst. apply R_refl. Qed.

Lemma respects_lift {A} (x : result A) : respects R (lift x).
Proof. intros st r st' H. inversion H; subst. apply R_refl. Qed.

Lemma respects_bind {A B} (m : M A) (k : A -> M B) :
  respects R m -> (forall a, respects R (k a)) -> respects R (bind m k).
Proof.
  intros Hm Hk st r st' H.
  apply bind_inv in H as [(e & H & _) | (a & st1 & H1 & H2)].
  - now apply (Hm _ _ _ H).
  - apply (R_trans _ st1); [now apply (Hm _ _ _ H1) | now apply (Hk a _ _ _ H2)].
Qed.

Lemma respects_display (ev : pyexpr -> M pyval) (items : list (string * pyexpr)) :
  Forall (fun kv => respects R (ev (snd kv))) items ->
  forall acc, respects R (display ev items acc).
Proof.
  induction 1 as [|[k e] rest He _ IH]; intros acc; simpl.
  - apply respects_ret.
  - apply respects_bind; auto.
Qed.

(** [eval] respects [R] as soon as its two effects do, on the payloads
    that [ok] accepts. *)
Lemma respects_eval (ok : pyexpr -> bool) (u : string) :
  (forall text, respects R (print text)) ->
  (ok EMessagesClear = true -> respects R clear) ->
  (forall items, ok (EDict items) = true ->
                 forallb (fun kv => ok (snd kv)) items = true) ->
  (forall a b, ok (EOr a b) = true -> ok a = true /\ ok b = true) ->
  forall e, ok e = true -> respects R (eval u e).
Proof.
  intros Hprint Hclear Hdict Hor.
  induction e using pyexpr_induction; intros Hok; simpl;
    try apply respects_ret; try apply respects_raise.
  - destruct x; [apply respects_ret | apply respects_raise ..].
  - apply respects_display. apply Hdict in Hok.
    rewrite forallb_forall in Hok. rewrite Forall_forall in *.
    intros kv Hin. apply (H kv Hin). now apply Hok.
  - destruct (Hor _ _ Hok) as [Ha Hb].
    apply respects_bind; [now apply IHe1|].
    intros va. destruct (truthy va); [apply respects_ret | now apply IHe2].
  - apply respects_bind; [apply Hprint | intros; apply respects_ret].
  - apply respects_bind; [now apply Hclear | intros; apply respects_ret].
Qed.

End Respects.

Lemma trace_grows_refl (st : state) : trace_grows st st.
Proof. exists []. now rewrite app_nil_r. Qed.

Lemma trace_grows_trans (a b c : state) :
  trace_grows a b -> trace_grows b c -> trace_grows a c.
Proof.
  intros [t1 E1] [t2 E2]. exists (t1 ++ t2). now rewrite E2, E1, app_assoc.
Qed.

Lemma no_call_refl (st : state) : no_call st st.
Proof. exists []. split; [now rewrite app_nil_r | constructor]. Qed.

Lemma no_call_trans (a b c : state) : no_call a b -> no_call b c -> no_call a c.
Proof.
  intros (t1 & E1 & F1) (t2 & E2 & F2). exists (t1 ++ t2). split.
  - now rewrite E2, E1, app_assoc.
  - apply Forall_app. now split.
Qed.

Lemma transcript_grows_refl (st : state) : transcript_grows st st.
Proof. exists []. now rewrite app_nil_r. Qed.

Lemma transcript_grows_trans (a b c : state) :
  transcript_grows a b -> transcript_grows b c -> transcript_grows a c.
Proof.
  intros [t1 E1] [t2 E2]. exists (t1 ++ t2). now rewrite E2, E1, app_assoc.
Qed.

Lemma same_transcript_refl (st : state) : same_transcript st st.
Proof. reflexivity. Qed.

Lemma same_transcript_trans (a b c : state) :
  same_transcript a b -> same_transcript b c -> same_transcript a c.
Proof. unfold same_transcript. congruence. Qed.

(** The evaluation of a payload adds events, none of them a call. *)
Lemma eval_no_call (u : string) (e : pyexpr) : respects no_call (eval u e).
Proof.
  apply (respects_eval no_call no_call_refl no_call_trans (fun _ => true)); auto.
  - intros text st r st' H. inversion H; subst. exists [Print text].
    split; [reflexivity | repeat constructor].
  - intros _ st r st' H. inversion H; subst. exists []. simpl.
    split; [now rewrite app_nil_r | constructor].
  - intros items _. now apply forallb_forall.
Qed.

(** The evaluation of a safe payload leaves the transcript as it is. *)
Lemma eval_safe (u : string) (e : pyexpr) :
  transcript_safe e = true -> respects same_transcript (eval u e).
Proof.
  apply (respects_eval same_transcript same_transcript_refl
           same_transcript_trans transcript_safe).
  - intros text st r st' H. now inversion H.
  - discriminate.
  - intros items H. exact H.
  - intros a b H. now apply andb_prop.
Qed.

Lemma no_call_trace_grows (st st' : state) : no_call st st' -> trace_grows st st'.
Proof. intros (tail & E & _). now exists tail. Qed.

Lemma same_transcript_grows (st st' : state) :
  same_transcript st st' -> transcript_grows st st'.
Proof. intros E. exists []. now rewrite app_nil_r. Qed.

Lemma respects_weaken (R R' : state -> state -> Prop) {A} (m : M A) :
  (forall st st', R st st' -> R' st st') -> respects R m -> respects R' m.
Proof. intros HR Hm st r st' H. apply HR. now apply (Hm st r st'). Qed.

Lemma emit_trace_grows (ev : event) : respects trace_grows (emit ev).
Proof. intros st r st' H. inversion H; subst. now exists [ev]. Qed.

Lemma append_trace_grows (m : message) : respects trace_grows (append m).
Proof.
  intros st r st' H. inversion H; subst. exists []. simpl. now rewrite app_nil_r.
Qed.

Lemma create_trace_grows (w : world) (b : bool) : respects trace_grows (create w b).
Proof. intros st r st' H. inversion H; subst. simpl. eexists. reflexivity. Qed.

Lemma fetch_trace_grows (w : world) (location : pyval) :
  respects trace_grows (fetch_weather_from_api w location).
Proof.
  unfold fetch_weather_from_api.
  apply (respects_bind _ trace_grows_trans).
  - intros st r st' H. inversion H; subst. simpl. eexists. reflexivity.
  - intros data. apply (respects_lift _ trace_grows_refl).
Qed.

Lemma emit_transcript_grows (ev : event) : respects transcript_grows (emit ev).
Proof.
  intros st r st' H. inversion H; subst. exists []. simpl. now rewrite app_nil_r.
Qed.

Lemma append_transcript_grows (m : message) : respects transcript_grows (append m).
Proof. intros st r st' H. inversion H; subst. now exists [m]. Qed.

Lemma create_transcript_grows (w : world) (b : bool) :
  respects transcript_grows (create w b).
Proof.
  intros st r st' H. inversion H; subst. exists []. simpl. now rewrite app_nil_r.
Qed.

Lemma fetch_transcript_grows (w : world) (location : pyval) :
  respects transcript_grows (fetch_weather_from_api w location).
Proof.
  unfold fetch_weather_from_api.
  apply (respects_bind _ transcript_grows_trans).
  - intros st r st' H. inversion H; subst. exists []. simpl. now rewrite app_nil_r.
  - intros data. apply (respects_lift _ transcript_grows_refl).
Qed.

(** ** The loop, iteration by iteration *)

(** The branches of an iteration respect [R] when the evaluation of the
    payload does and each of the loop's own steps does. *)
Lemma respects_after_first_call (R : state -> state -> Prop)
    (w : world) (u : string) (response : reply) :
  (forall st, R st st) -> (forall a b c, R a b -> R b c -> R a c) ->
  (forall ev, respects R (emit ev)) ->
  (forall m, respects R (append m)) ->
  (forall b, respects R (create w b)) ->
  (forall location, respects R (fetch_weather_from_api w location)) ->
  (forall fc, reply_function_call response = Some fc ->
              respects R (eval u (arguments fc))) ->
  respects R (after_first_call w u response).
Proof.
  intros Rr Rt Hemit Happend Hcreate Hfetch Heval.
  unfold after_first_call, weather_branch, print.
  destruct (reply_function_call response) as [fc|].
  - apply (respects_bind R Rt); [now apply Heval | intros args].
    apply (respects_bind R Rt); [apply (respects_lift R Rr) | intros location].
    apply (respects_bind R Rt); [apply Hfetch | intros wd].
    apply (respects_bind R Rt); [apply Happend | intros _].
    apply (respects_bind R Rt); [apply Hcreate | intros second].
    apply (respects_bind R Rt); [apply Hemit | intros _].
    apply (respects_bind R Rt); [apply Happend | intros _].
    apply (respects_ret R Rr).
  - apply (respects_bind R Rt); [apply Hemit | intros _].
    apply (respects_bind R Rt); [apply Happend | intros _].
    apply (respects_ret R Rr).
Qed.

Lemma after_first_call_trace_grows (w : world) (u : string) (response : reply) :
  respects trace_grows (after_first_call w u response).
Proof.
  apply respects_after_first_call.
  - exact trace_grows_refl.
  - exact trace_grows_trans.
  - exact emit_trace_grows.
  - exact append_trace_grows.
  - exact (create_trace_grows w).
  - exact (fetch_trace_grows w).
  - intros fc _. apply (respects_weaken no_call); [apply no_call_trace_grows|].
    apply eval_no_call.
Qed.

Lemma iteration_quit (w : world) (line : string) (st : state) :
  lower (strip line) = "quit" ->
  iteration w (Some line) st = (Ok Break, after_quit line st).
Proof.
  intros H. unfold iteration, input, bind, emit, print, emit, ret. simpl.
  rewrite H. simpl. unfold after_quit. simpl.
  now rewrite <- app_assoc.
Qed.

Lemma iteration_turn (w : world) (line : string) (st : state) :
  lower (strip line) <> "quit" ->
  iteration w (Some line) st =
    match llm w (trace (read_line line st)) (messages (read_line line st)) true with
    | Ok response =>
        after_first_call w (strip line) response (sent true (read_line line st))
    | Raise e => (Raise e, sent true (read_line line st))
    end.
Proof.
  intros H. unfold iteration, input, bind, emit, append, create, ret. simpl.
  rewrite (eqb_quit_false _ H). simpl.
  fold (read_line line st).
  change {| messages := messages st ++ [user_message (strip line)];
            trace := (trace st ++ [Input "You: " (Some line)]) ++
                       [ModelCall (messages st ++ [user_message (strip line)]) true] |}
    with (sent true (read_line line st)).
  destruct (llm w _ _ true) as [response|e]; [|reflexivity].
  unfold after_first_call, weather_branch, bind, print, emit, append, ret.
  destruct (reply_function_call response); reflexivity.
Qed.

Lemma iteration_eof (w : world) (st : state) :
  iteration w None st =
    (Raise EOFError,
     {| messages := messages st; trace := trace st ++ [Input "You: " None] |}).
Proof. reflexivity. Qed.

Lemma chat_loop_quit (w : world) (line : string) (rest : list string) (st : state) :
  lower (strip line) = "quit" ->
  chat_loop w (line :: rest) st = (Ok tt, after_quit line st).
Proof.
  intros H. simpl. unfold bind at 1. now rewrite (iteration_quit w line st H).
Qed.

Lemma chat_loop_continue (w : world) (line : string) (rest : list string)
    (st st' : state) :
  iteration w (Some line) st = (Ok Continue, st') ->
  chat_loop w (line :: rest) st = chat_loop w rest st'.
Proof. intros H. simpl. unfold bind at 1. now rewrite H. Qed.

Lemma chat_loop_raise (w : world) (line : string) (rest : list string)
    (st st' : state) (e : exc) :
  iteration w (Some line) st = (Raise e, st') ->
  chat_loop w (line :: rest) st = (Raise e, st').
Proof. intros H. simpl. unfold bind at 1. now rewrite H. Qed.

Lemma chat_with_bot_greeted (w : world) (inputs : list string) :
  chat_with_bot w inputs = chat_loop w inputs greeted.
Proof. reflexivity. Qed.

Lemma chat_loop_turns (w : world) (lines rest : list string) (st st' : state) :
  turns w lines st st' ->
  chat_loop w (lines ++ rest) st = chat_loop w rest st'.
Proof.
  induction 1 as [st|line lines st st1 st2 H _ IH]; [reflexivity|].
  rewrite <- app_comm_cons, (chat_loop_continue _ _ _ _ _ H). exact IH.
Qed.

(** ** The quit command *)

(** C6: a line that equals [quit] up to letter case ends the session:
    whatever the transcript, the events so far and the lines still waiting
    on the console, the loop returns normally, and all it does is read the
    line and print the farewell.  No model or weather call is issued, the
    transcript is the one before the line, and no later line is read. *)
Theorem quit_ends_session (w : world) (line : string) (rest : list string)
    (st : state) :
  lower line = "quit" ->
  chat_loop w (line :: rest) st =
    (Ok tt,
     {| messages := messages st;
        trace := trace st ++ [Input "You: " (Some line);
                              Print "Chat Bot: Goodbye!"] |}).
Proof.
  intros H. apply (chat_loop_quit w line rest st).
  now rewrite (strip_no_space line (lower_quit_no_space line H)).
Qed.

Lemma quit_ends_session_witness :
  lower "QUIT" = "quit" /\
  chat_loop silent_world ["QUIT"; "Berlin"] initial =
    (Ok tt,
     {| messages := [system_message];
        trace := [Input "You: " (Some "QUIT"); Print "Chat Bot: Goodbye!"] |}).
Proof.
  split; [reflexivity|].
  apply (quit_ends_session silent_world "QUIT" ["Berlin"] initial).
  reflexivity.
Defined.

(** ** The line that is read, on all of Unicode *)

Module WideFacts.
Import Wide.

Lemma wide_eqb_eq (a b : text) : eqb a b = true <-> a = b.
Proof.
  revert b. induction a as [|x a IH]; intros [|y b]; simpl;
    try (split; [discriminate | discriminate]); [now split|].
  rewrite andb_true_iff, Z.eqb_eq, IH. split.
  - now intros [-> ->].
  - intros H. now inversion H.
Qed.

Lemma wide_eqb_false (a b : text) : a <> b -> eqb a b = false.
Proof.
  intros H. destruct (eqb a b) eqn:E; [|reflexivity].
  now apply wide_eqb_eq in E.
Qed.

(** *** [strip] *)

Lemma wide_lstrip_all_space_app (ws s : text) :
  all_space ws = true -> lstrip (ws ++ s) = lstrip s.
Proof.
  induction ws as [|c ws IH]; simpl; [reflexivity|].
  intros H. apply andb_prop in H as [Hc Hws]. rewrite Hc. now apply IH.
Qed.

Lemma wide_rstrip_all_space (ws : text) : all_space ws = true -> rstrip ws = [].
Proof.
  induction ws as [|c ws IH]; simpl; [reflexivity|].
  intros H. apply andb_prop in H as [Hc Hws]. now rewrite (IH Hws), Hc.
Qed.

Lemma wide_rstrip_app_all_space (s ws : text) :
  all_space ws = true -> rstrip (s ++ ws) = rstrip s.
Proof.
  intros H. induction s as [|c s IH]; simpl.
  - now apply wide_rstrip_all_space.
  - now rewrite IH.
Qed.

Lemma wide_rstrip_last (s : text) :
  s <> [] -> isspace (last s 0) = false -> rstrip s = s.
Proof.
  induction s as [|c s IH]; [now intros H|]. intros _ Hl.
  destruct s as [|c' s'].
  - simpl in *. now rewrite Hl.
  - change (last (c :: c' :: s') 0) with (last (c' :: s') 0) in Hl.
    cbn [rstrip]. cbn [rstrip] in IH. rewrite IH; [reflexivity|discriminate|exact Hl].
Qed.

Lemma wide_lstrip_decompose (s : text) :
  exists ws, all_space ws = true /\ s = ws ++ lstrip s.
Proof.
  induction s as [|c t (ws & Hws & E)].
  - now exists [].
  - simpl. destruct (isspace c) eqn:Ec.
    + exists (c :: ws). simpl. rewrite Ec, Hws. split; [reflexivity|].
      now rewrite <- E.
    + now exists [].
Qed.

Lemma wide_rstrip_decompose (s : text) :
  exists ws, all_space ws = true /\ s = rstrip s ++ ws.
Proof.
  induction s as [|c t (ws & Hws & E)].
  - now exists [].
  - simpl. destruct (rstrip t) as [|c' t'] eqn:Er.
    + simpl in E. subst t. destruct (isspace c) eqn:Ec.
      * exists (c :: ws). simpl. now rewrite Ec, Hws.
      * now exists ws.
    + exists ws. split; [exact Hws|]. simpl. simpl in E. now rewrite <- E.
Qed.

Lemma wide_strip_decompose (s : text) :
  exists ws1 ws2,
    all_space ws1 = true /\ all_space ws2 = true
    /\ s = ws1 ++ strip s ++ ws2.
Proof.
  destruct (wide_lstrip_decompose s) as (ws1 & H1 & E1).
  destruct (wide_rstrip_decompose (lstrip s)) as (ws2 & H2 & E2).
  exists ws1, ws2. repeat split; try assumption.
  unfold strip. now rewrite <- E2.
Qed.

Lemma wide_lstrip_head (s : text) :
  match lstrip s with
  | [] => True
  | c :: _ => isspace c = false
  end.
Proof.
  induction s as [|c t IH]; simpl; [exact I|].
  destruct (isspace c) eqn:E; [exact IH | exact E].
Qed.

Lemma wide_rstrip_head (c : Z) (t : text) :
  isspace c = false -> exists t', rstrip (c :: t) = c :: t'.
Proof.
  intros H. simpl. destruct (rstrip t) as [|c' t'].
  - rewrite H. now exists [].
  - now exists (c' :: t').
Qed.

Lemma wide_rstrip_end (s : text) :
  match rstrip s with
  | [] => True
  | c :: t => isspace (last (c :: t) 0) = false
  end.
Proof.
  induction s as [|c s IH]; simpl; [exact I|].
  destruct (rstrip s) as [|c' t'] eqn:E.
  - destruct (isspace c) eqn:Ec; [exact I | exact Ec].
  - exact IH.
Qed.

Lemma wide_strip_clean (s : text) : clean (strip s) = true.
Proof.
  unfold strip. pose proof (wide_lstrip_head s) as Hh.
  destruct (lstrip s) as [|c t] eqn:E; [reflexivity|].
  destruct (wide_rstrip_head c t Hh) as [t' Et].
  pose proof (wide_rstrip_end (c :: t)) as He. rewrite Et in *.
  unfold clean. now rewrite Hh, He.
Qed.

Lemma wide_strip_unique (ws1 m ws2 : text) :
  all_space ws1 = true -> all_space ws2 = true -> clean m = true ->
  strip (ws1 ++ m ++ ws2) = m.
Proof.
  intros H1 H2 Hm. unfold strip. rewrite (wide_lstrip_all_space_app _ _ H1).
  destruct m as [|c m'].
  - simpl. rewrite <- (app_nil_r ws2), (wide_lstrip_all_space_app _ _ H2).
    reflexivity.
  - unfold clean in Hm. apply andb_prop in Hm as [Hc Hl].
    apply negb_true_iff in Hc, Hl.
    cbn [app lstrip]. rewrite Hc.
    change (c :: m' ++ ws2) with ((c :: m') ++ ws2).
    rewrite (wide_rstrip_app_all_space _ _ H2).
    apply wide_rstrip_last; [discriminate | exact Hl].
Qed.

Lemma wide_strip_idempotent (s : text) : strip (strip s) = strip s.
Proof.
  rewrite <- (app_nil_r (strip s)) at 1.
  apply (wide_strip_unique [] (strip s) []); try reflexivity.
  apply wide_strip_clean.
Qed.

(** *** [lower] *)

Lemma offset_candidates (t : list (Z * Z * Z * Z)) (c y : Z) :
  c + offset t c = y -> In c (y :: map (fun r => y - snd r) t).
Proof.
  induction t as [|[[[lo hi] step] delta] rest IH]; simpl.
  - intros H. left. lia.
  - destruct ((lo <=? c) && (c <=? hi) && ((c - lo) mod step =? 0)).
    + intros H. right. left. lia.
    + intros H. destruct (IH H) as [E|E]; [now left | right; now right].
Qed.

Lemma tolower_candidates (c y : Z) : tolower c = y -> In c (candidates y).
Proof. apply offset_candidates. Qed.

(** The only code points that [tolower] takes to a letter of [quit] are the
    letter and its capital. *)
Lemma tolower_letter (c y : Z) :
  In y [113; 117; 105; 116] -> tolower c = y -> c = y \/ c = y - 32.
Proof.
  intros Hy H.
  assert (Hin : In c (filter (fun x => tolower x =? y) (candidates y))).
  { apply filter_In. split; [now apply tolower_candidates | now apply Z.eqb_eq]. }
  clear H. simpl in Hy.
  destruct Hy as [<-|[<-|[<-|[<-|[]]]]]; vm_compute in Hin;
    repeat match goal with
           | H : _ \/ _ |- _ => destruct H
           | H : False |- _ => destruct H
           end; subst; auto.
Qed.

Lemma lower_at_cases (before : text) (c : Z) (after : text) :
  lower_at before c after = [105; 775]
  \/ lower_at before c after = [962]
  \/ lower_at before c after = [963]
  \/ (c <> 304 /\ lower_at before c after = [tolower c]).
Proof.
  unfold lower_at, tolower_full.
  destruct (c =? 931); [destruct (final_sigma before after); auto|].
  destruct (c =? 304) eqn:E; [auto|].
  apply Z.eqb_neq in E. auto.
Qed.

Lemma lower_from_nil (before s : text) : lower_from before s = [] -> s = [].
Proof.
  destruct s as [|c t]; [reflexivity|]. simpl.
  destruct (lower_at_cases before c t) as [E|[E|[E|[_ E]]]]; rewrite E;
    discriminate.
Qed.

(** One step of [lower] on a text that becomes a letter [y] of [quit]
    followed by [rest]. *)
Lemma lower_from_letter (before s : text) (y : Z) (rest : text) :
  In y [113; 117; 105; 116] -> rest = [] \/ hd 0 rest <> 775 ->
  lower_from before s = y :: rest ->
  exists c t,
    s = c :: t /\ (c = y \/ c = y - 32)
    /\ lower_from (c :: before) t = rest.
Proof.
  intros Hy Hrest H. destruct s as [|c t]; [discriminate|].
  simpl in H. exists c, t. split; [reflexivity|].
  destruct (lower_at_cases before c t) as [E|[E|[E|[Hc E]]]]; rewrite E in H;
    simpl in H; inversion H; subst.
  - destruct Hrest as [Hr|Hr]; [discriminate | now destruct Hr].
  - simpl in Hy. repeat destruct Hy as [Hy|Hy]; try discriminate; destruct Hy.
  - simpl in Hy. repeat destruct Hy as [Hy|Hy]; try discriminate; destruct Hy.
  - split; [|reflexivity]. now apply tolower_letter.
Qed.

Lemma wide_lower_quit_word (q : text) :
  lower q = of_string "quit" <-> quit_word q = true.
Proof.
  change (of_string "quit") with [113; 117; 105; 116]. unfold lower. split.
  - intros H.
    apply lower_from_letter in H as (c1 & t1 & -> & H1 & H);
      [|simpl; auto|right; simpl; lia].
    apply lower_from_letter in H as (c2 & t2 & -> & H2 & H);
      [|simpl; auto|right; simpl; lia].
    apply lower_from_letter in H as (c3 & t3 & -> & H3 & H);
      [|simpl; auto|right; simpl; lia].
    apply lower_from_letter in H as (c4 & t4 & -> & H4 & H);
      [|simpl; auto 6|now left].
    apply lower_from_nil in H. subst t4.
    destruct H1, H2, H3, H4; subst; reflexivity.
  - intros H. destruct q as [|c1 [|c2 [|c3 [|c4 [|c5 r]]]]]; try discriminate.
    simpl in H.
    repeat (apply andb_prop in H as [H ?]).
    repeat match goal with
           | E : (_ || _) = true |- _ => apply orb_prop in E as [E|E]
           | E : (_ =? _) = true |- _ => apply Z.eqb_eq in E; subst
           end; vm_compute; reflexivity.
Qed.

Lemma quit_word_clean (q : text) : quit_word q = true -> clean q = true.
Proof.
  intros H. destruct q as [|c1 [|c2 [|c3 [|c4 [|c5 r]]]]]; try discriminate.
  simpl in H.
  repeat (apply andb_prop in H as [H ?]).
  repeat match goal with
         | E : (_ || _) = true |- _ => apply orb_prop in E as [E|E]
         | E : (_ =? _) = true |- _ => apply Z.eqb_eq in E; subst
         end; reflexivity.
Qed.

(** *** The head of an iteration *)

Lemma wide_iteration_quit (llm : model) (respond : text -> reply -> M unit)
    (line : text) (st : state) :
  lower (strip line) = of_string "quit" ->
  iteration llm respond (Some line) st =
    (Ok Break,
     {| messages := messages st;
        trace := trace st ++ [Input "You: " (Some line);
                              Print (of_string "Chat Bot: Goodbye!")] |}).
Proof.
  intros H. unfold iteration, input, bind, emit, print, emit, ret.
  cbn [messages trace].
  apply wide_eqb_eq in H. rewrite H. cbn [messages trace].
  now rewrite <- app_assoc.
Qed.

Lemma wide_iteration_turn (llm : model) (respond : text -> reply -> M unit)
    (line : text) (st : state) :
  lower (strip line) <> of_string "quit" ->
  let user :=
    {| role := "user"; name := None; content_of := Str (strip line) |} in
  let st1 :=
    {| messages := messages st ++ [user];
       trace := (trace st ++ [Input "You: " (Some line)])
                  ++ [ModelCall (messages st ++ [user]) true] |} in
  iteration llm respond (Some line) st =
    match llm (trace st ++ [Input "You: " (Some line)])
              (messages st ++ [user]) true with
    | Ok response =>
        match respond (strip line) response st1 with
        | (Ok _, st2) => (Ok Continue, st2)
        | (Raise e, st2) => (Raise e, st2)
        end
    | Raise e => (Raise e, st1)
    end.
Proof.
  intros H user st1. unfold iteration, input, bind, emit, append, create, ret.
  cbn [messages trace].
  rewrite (wide_eqb_false _ _ H). cbn [messages trace].
  destruct (llm _ _ true) as [response|e]; [|reflexivity].
  fold user. fold st1. now destruct (respond (strip line) response st1) as [[[]|e] st2].
Qed.

End WideFacts.

(** C10: the line read from the console is stripped before anything else
    is done with it, whatever code points it holds.  A [quit] in any letter
    case between white space of any kind is stripped to the bare word and
    ends the session as a bare [quit] does: the loop returns normally after
    the farewell, the transcript is the one before the line, and the lines
    still waiting are not read.  On any other line the transcript gains the
    message with role [user] whose content is the stripped line, the model
    is called with the function schema on that transcript, and the rest of
    the turn is given the stripped line, never the raw one.  The stripped
    line is the line without the white space at its two ends: the line is
    the stripped text between two runs of white space, and the stripped
    text neither starts nor ends with white space. *)
Theorem input_is_stripped (llm : Wide.model)
    (respond : Wide.text -> Wide.reply -> Wide.M unit)
    (rest : list Wide.text) (st : Wide.state) :
  (forall ws1 q ws2 : Wide.text,
      Wide.all_space ws1 = true -> Wide.all_space ws2 = true ->
      Wide.lower q = Wide.of_string "quit" ->
      Wide.strip (ws1 ++ q ++ ws2) = q
      /\ Wide.chat_loop llm respond ((ws1 ++ q ++ ws2) :: rest) st =
           (Ok tt,
            {| Wide.messages := Wide.messages st;
               Wide.trace :=
                 Wide.trace st ++
                   [Wide.Input "You: " (Some (ws1 ++ q ++ ws2));
                    Wide.Print (Wide.of_string "Chat Bot: Goodbye!")] |}))
  /\ (forall line : Wide.text,
      Wide.lower (Wide.strip line) <> Wide.of_string "quit" ->
      let user :=
        {| Wide.role := "user"; Wide.name := None;
           Wide.content_of := Wide.Str (Wide.strip line) |} in
      let st1 :=
        {| Wide.messages := Wide.messages st ++ [user];
           Wide.trace :=
             (Wide.trace st ++ [Wide.Input "You: " (Some line)])
               ++ [Wide.ModelCall (Wide.messages st ++ [user]) true] |} in
      Wide.iteration llm respond (Some line) st =
        match llm (Wide.trace st ++ [Wide.Input "You: " (Some line)])
                  (Wide.messages st ++ [user]) true with
        | Ok response =>
            match respond (Wide.strip line) response st1 with
            | (Ok _, st2) => (Ok Wide.Continue, st2)
            | (Raise e, st2) => (Raise e, st2)
            end
        | Raise e => (Raise e, st1)
        end)
  /\ (forall line : Wide.text,
      Wide.clean (Wide.strip line) = true
      /\ exists ws1 ws2,
           Wide.all_space ws1 = true /\ Wide.all_space ws2 = true
           /\ line = ws1 ++ Wide.strip line ++ ws2).
Proof.
  split; [|split].
  - intros ws1 q ws2 H1 H2 Hq.
    assert (Hs : Wide.strip (ws1 ++ q ++ ws2) = q).
    { apply WideFacts.wide_strip_unique; try assumption.
      apply WideFacts.quit_word_clean. now apply WideFacts.wide_lower_quit_word. }
    split; [exact Hs|].
    cbn [Wide.chat_loop]. unfold Wide.bind at 1.
    rewrite WideFacts.wide_iteration_quit; [reflexivity|].
    now rewrite Hs.
  - intros line Hq. now apply WideFacts.wide_iteration_turn.
  - intros line. split.
    + apply WideFacts.wide_strip_clean.
    + apply WideFacts.wide_strip_decompose.
Qed.

Lemma input_is_stripped_witness :
  Wide.strip WideSample.spaced_quit = [81; 85; 73; 84]
  /\ Wide.chat_loop WideSample.silent WideSample.answer_directly
       [WideSample.spaced_quit; WideSample.spaced_berlin] WideSample.initial =
     (Ok tt,
      {| Wide.messages := Wide.messages WideSample.initial;
         Wide.trace :=
           [Wide.Input "You: " (Some WideSample.spaced_quit);
            Wide.Print (Wide.of_string "Chat Bot: Goodbye!")] |})
  /\ Wide.messages
       (snd (Wide.iteration WideSample.chatty WideSample.answer_directly
               (Some WideSample.spaced_berlin) WideSample.initial))
     = Wide.messages WideSample.initial ++
         [{| Wide.role := "user"; Wide.name := None;
             Wide.content_of := Wide.Str (Wide.of_string "Berlin") |};
          {| Wide.role := "assistant"; Wide.name := None;
             Wide.content_of := Wide.Str (Wide.of_string "ok") |}].
Proof.
  destruct (input_is_stripped WideSample.silent WideSample.answer_directly
              [WideSample.spaced_berlin] WideSample.initial)
    as (Hquit & _ & _).
  destruct (input_is_stripped WideSample.chatty WideSample.answer_directly
              [] WideSample.initial)
    as (_ & Hturn & _).
  destruct (Hquit [8195] [81; 85; 73; 84] [12288] eq_refl eq_refl eq_refl)
    as [Hs Hloop].
  split; [exact Hs|]. split; [exact Hloop|].
  rewrite (Hturn WideSample.spaced_berlin); [reflexivity|].
  vm_compute. discriminate.
Defined.

(** [strip] and [lower] on sample texts, as Python 3.11 computes them:
    white space above U+00FF is stripped, the capital I with a dot above
    becomes two code points, a capital sigma becomes a final sigma at the
    end of a word, the Kelvin sign becomes [k]. *)
Example wide_samples :
  Wide.strip [32; 32; 81; 117; 105; 116; 12288] = [81; 117; 105; 116]
  /\ Wide.lower [8195; 113; 85; 105; 84; 8232]
     = [8195; 113; 117; 105; 116; 8232]
  /\ Wide.lower WideSample.dotted_quit = [113; 117; 105; 775; 116]
  /\ Wide.lower [927; 916; 927; 931] = [959; 948; 959; 962]
  /\ Wide.lower [931; 931; 32; 931; 913; 931; 46]
     = [963; 962; 32; 963; 945; 962; 46]
  /\ Wide.lower [65; 837; 931] = [97; 837; 962]
  /\ Wide.lower [8490; 101; 108; 118; 105; 110; 32; 197]
     = [107; 101; 108; 118; 105; 110; 32; 229]
  /\ Wide.lower [65329; 65333; 65321; 65332] = [65361; 65365; 65353; 65364]
  /\ Wide.lower [83; 116; 114; 97; 223; 101; 32; 7838]
     = [115; 116; 114; 97; 223; 101; 32; 223]
  /\ Wide.lower [66560; 100] = [66600; 100]
  /\ Wide.lower [453; 32; 452] = [454; 32; 454].
Proof. vm_compute. repeat split. Qed.

(** ** Errors of the endpoints *)

Lemma iteration_endpoint_fails (w : world) (line : string) (st st' : state) (e : exc) :
  lower (strip line) <> "quit" ->
  endpoint_fails w line st e st' ->
  iteration w (Some line) st = (Raise e, st').
Proof.
  intros Hq H. rewrite (iteration_turn w line st Hq).
  destruct H as [e H1 | response fc args location st2 e st3 H1 Hfc Hev Hloc Hfetch
                | response fc args location st2 wd st3 e H1 Hfc Hev Hloc Hfetch H2];
    rewrite H1; [reflexivity| |];
    unfold after_first_call; rewrite Hfc; unfold weather_branch;
    rewrite (bind_ok _ _ _ _ _ Hev);
    unfold lift at 1; unfold bind at 1; rewrite Hloc.
  - now apply bind_raise.
  - rewrite (bind_ok _ _ _ _ _ Hfetch).
    unfold bind, append, create. simpl. now rewrite H2.
Qed.

Lemma endpoint_fails_last_call (w : world) (line : string) (st st' : state) (e : exc) :
  endpoint_fails w line st e st' ->
  exists tr call, trace st' = tr ++ [call] /\ is_call call = true.
Proof.
  intros [e' _ | response fc args location st2 e' st3 _ _ _ _ Hfetch
         | response fc args location st2 wd st3 e' _ _ _ _ _ _].
  - simpl. eauto.
  - unfold fetch_weather_from_api, bind in Hfetch. simpl in Hfetch.
    destruct (provider w (trace st2) location) as [data|e0].
    + unfold lift in Hfetch. inversion Hfetch; subst. simpl. eauto.
    + inversion Hfetch; subst. simpl. eauto.
  - simpl. eauto.
Qed.

(** C9: an error of the language-model endpoint or of the weather lookup
    ends the session with that error.  Whatever turns came before and
    whatever lines are still waiting, the run of [chat_with_bot] raises the
    error of the failing call, in the state of that moment: the failing call
    is the last event, nothing is retried, printed or appended after it and
    no further line is read. *)
Theorem errors_end_session (w : world) (earlier : list string) (line : string)
    (rest : list string) (st st' : state) (e : exc) :
  turns w earlier greeted st ->
  lower (strip line) <> "quit" ->
  endpoint_fails w line st e st' ->
  chat_with_bot w (earlier ++ line :: rest) = (Raise e, st')
  /\ exists tr call, trace st' = tr ++ [call] /\ is_call call = true.
Proof.
  intros Hturns Hq Hfail. split.
  - rewrite chat_with_bot_greeted, (chat_loop_turns _ _ _ _ _ Hturns).
    apply chat_loop_raise. now apply iteration_endpoint_fails.
  - now apply (endpoint_fails_last_call w line st st' e).
Qed.

Lemma errors_end_session_witness :
  chat_with_bot (weather_world berlin_payload (Ok not_found_body))
                ["Atlantis"; "Berlin"] =
    (Raise (KeyError (SKey "main")),
     looked_up (VStr "Berlin") (sent true (read_line "Atlantis" greeted))).
Proof.
  assert (F : endpoint_fails (weather_world berlin_payload (Ok not_found_body))
                "Atlantis" greeted (KeyError (SKey "main"))
                (looked_up (VStr "Berlin") (sent true (read_line "Atlantis" greeted)))).
  { eapply lookup_fails; reflexivity. }
  assert (Q : lower (strip "Atlantis") <> "quit") by (vm_compute; discriminate).
  exact (proj1 (errors_end_session _ [] "Atlantis" ["Berlin"] greeted _ _
                  (turns_nil _ greeted) Q F)).
Defined.

(** ** The weather lookup *)

Lemma getitem_key (v : json) (k : string) (x : json) :
  getitem v (SKey k) = Ok x <-> find v k = Some x.
Proof.
  destruct v; simpl; try (split; discriminate).
  destruct (dict_get items k); split; congruence.
Qed.

Lemma getitem_first (v first : json) :
  getitem v (SIdx 0) = Ok first ->
  (exists rest, v = JList (first :: rest)) \/ (exists s, first = JStr s).
Proof.
  destruct v as [| | | |s|l|d]; simpl; try discriminate.
  - destruct (seq_get _ 0); [|discriminate]. intros H. inversion H. eauto.
  - destruct l as [|x rest]; [discriminate|].
    unfold seq_get. simpl. intros H. inversion H. eauto.
Qed.

(** One step of a chain of [let?]: the first computation returned [x]
    (equation [E]) or raised. *)
Ltac let_step x E :=
  match goal with
  | |- context [rbind ?c _] => destruct c as [x|] eqn:E; cbn [rbind]
  end.

Lemma kelvin_to_celsius_ok (temp_k : json) (t : float) :
  kelvin_to_celsius temp_k = Ok t <->
  exists k, to_float temp_k = Ok k /\ t = PrimFloat.sub k kelvin_offset.
Proof.
  unfold kelvin_to_celsius. destruct (to_float temp_k) as [k|e]; simpl; split.
  - intros H. inversion H. eauto.
  - intros (k' & H & ->). now inversion H.
  - discriminate.
  - intros (k' & H & _). discriminate.
Qed.

Lemma getitem_raises (v : json) (i : subscript) (e : exc) :
  getitem v i = Raise e -> upstream_data_error e = true.
Proof.
  destruct v, i; simpl; try (intros H; inversion H; reflexivity).
  - destruct (seq_get _ i); intros H; inversion H; reflexivity.
  - destruct (seq_get items i); intros H; inversion H; reflexivity.
  - destruct (dict_get items k); intros H; inversion H; reflexivity.
Qed.

Lemma kelvin_to_celsius_raises (v : json) (e : exc) :
  kelvin_to_celsius v = Raise e -> upstream_data_error e = true.
Proof.
  unfold kelvin_to_celsius.
  destruct v; simpl; try (intros H; inversion H; reflexivity).
  destruct (of_int z); intros H; inversion H; reflexivity.
Qed.

(** The body returns exactly on the answers that have a number at
    [main.temp] and a description in the first entry of the list
    [weather]. *)
Lemma weather_of_response_ok (data : json) (wd : weather_data) :
  weather_of_response data = Ok wd <->
  exists main temp_k k first rest,
    find data "main" = Some main /\ find main "temp" = Some temp_k /\
    to_float temp_k = Ok k /\
    find data "weather" = Some (JList (first :: rest)) /\
    find first "description" = Some (conditions wd) /\
    temperature wd = round1 (PrimFloat.sub k kelvin_offset).
Proof.
  unfold weather_of_response. split.
  - let_step main E1; [|discriminate].
    let_step temp_k E2; [|discriminate].
    let_step t E3; [|discriminate].
    let_step weather E4; [|discriminate].
    let_step entry E5; [|discriminate].
    let_step d E6; [|discriminate].
    intros H. inversion H; subst. simpl.
    apply getitem_key in E1, E2, E4, E6.
    apply kelvin_to_celsius_ok in E3 as (k & E3 & ->).
    destruct (getitem_first _ _ E5) as [[rest ->] | [s ->]]; [|discriminate].
    exists main, temp_k, k, entry, rest. repeat split; assumption.
  - intros (main & temp_k & k & first & rest & E1 & E2 & E3 & E4 & E6 & E7).
    apply getitem_key in E1, E2, E4, E6.
    rewrite E1. cbn [rbind]. rewrite E2. cbn [rbind].
    unfold kelvin_to_celsius. rewrite E3. cbn [rbind].
    rewrite E4. cbn [rbind getitem]. unfold seq_get. simpl.
    rewrite E6. cbn [rbind].
    destruct wd as [c t]. simpl in *. now rewrite E7.
Qed.

(** Every exception of the body is an error of the answer's shape. *)
Lemma weather_of_response_raises (data : json) (e : exc) :
  weather_of_response data = Raise e -> upstream_data_error e = true.
Proof.
  unfold weather_of_response.
  let_step main E1; [|intros H; inversion H; subst; eauto using getitem_raises].
  let_step temp_k E2; [|intros H; inversion H; subst; eauto using getitem_raises].
  let_step t E3; [|intros H; inversion H; subst; eauto using kelvin_to_celsius_raises].
  let_step weather E4; [|intros H; inversion H; subst; eauto using getitem_raises].
  let_step entry E5; [|intros H; inversion H; subst; eauto using getitem_raises].
  let_step d E6; [discriminate|intros H; inversion H; subst; eauto using getitem_raises].
Qed.

Lemma fetch_weather_answer (w : world) (location : pyval) (st : state) (data : json) :
  provider w (trace st) location = Ok data ->
  fetch_weather_from_api w location st =
    (weather_of_response data, looked_up location st).
Proof.
  intros H. unfold fetch_weather_from_api, bind, lift. now rewrite H.
Qed.





(** [round(x, 1)] on sample values: ties go to the even tenth on the exact
    value of the double, the sign of a negative zero is kept, doubles
    without a fractional part and the non-finite ones round to themselves. *)
Example round1_samples :
  round1 0.25%float = 0.2%float
  /\ round1 0.75%float = 0.8%float
  /\ round1 0.15%float = 0.1%float
  /\ round1 0.35%float = 0.3%float
  /\ round1 99.95%float = 100.0%float
  /\ round1 (-0.25)%float = (-0.2)%float
  /\ round1 (-0.04)%float = (-0.0)%float
  /\ round1 1e300%float = 1e300%float
  /\ round1 infinity = infinity
  /\ round1 (PrimFloat.sub 0x1p+0%float 273.15%float) = (-272.1)%float.
Proof. repeat split; vm_compute; reflexivity. Qed.

(** An integer, a boolean and a string at [main.temp]. *)
Example kelvin_to_celsius_samples :
  rbind (kelvin_to_celsius (JInt 300)) (fun t => Ok (round1 t)) = Ok 26.9%float
  /\ rbind (kelvin_to_celsius (JBool true)) (fun t => Ok (round1 t))
     = Ok (-272.1)%float
  /\ kelvin_to_celsius (JStr "300.15") = Raise TypeError
  /\ kelvin_to_celsius (JInt (2 ^ 1024)) = Raise OverflowError.
Proof. repeat split; vm_compute; reflexivity. Qed.

(** The lookup on the sample answer: clear sky, 27.0 degrees. *)
Example fetch_berlin :
  fetch_weather_from_api (weather_world berlin_payload (Ok berlin_body))
    (VStr "Berlin") greeted =
  (Ok {| conditions := JStr "clear sky"; temperature := 27.0%float |},
   looked_up (VStr "Berlin") greeted).
Proof. vm_compute. reflexivity. Qed.

(** C3: an answer without the list [weather], without [main.temp] or
    without a description in the first entry of [weather] makes the lookup
    raise an error of the answer's shape; the lookup returns no result, be
    it partial. *)
Theorem missing_keys_fail (w : world) (location : pyval) (st : state)
    (data : json) :
  provider w (trace st) location = Ok data ->
  lacks_weather data \/ lacks_main_temp data \/ lacks_description data ->
  exists e,
    fetch_weather_from_api w location st = (Raise e, looked_up location st)
    /\ upstream_data_error e = true.
Proof.
  intros Hp Hlacks. rewrite (fetch_weather_answer _ _ _ _ Hp).
  destruct (weather_of_response data) as [wd|e] eqn:E.
  - exfalso. apply weather_of_response_ok in E
      as (main & temp_k & k & first & rest & Hm & Ht & _ & Hw & Hd & _).
    unfold lacks_weather, lacks_main_temp, lacks_description in Hlacks.
    rewrite Hm, Hw in Hlacks.
    destruct Hlacks as [H|[H|H]]; congruence.
  - exists e. split; [reflexivity|].
    now apply (weather_of_response_raises data).
Qed.

Lemma missing_keys_fail_witness :
  exists e,
    fetch_weather_from_api (weather_world berlin_payload (Ok no_weather_body))
      (VStr "Berlin") greeted = (Raise e, looked_up (VStr "Berlin") greeted)
    /\ upstream_data_error e = true.
Proof.
  apply (missing_keys_fail (weather_world berlin_payload (Ok no_weather_body))
           (VStr "Berlin") greeted no_weather_body).
  - reflexivity.
  - left. reflexivity.
Defined.

(** The exceptions on three sample answers: no [weather], the provider's
    answer for an unknown place, and an empty list [weather]. *)
Example missing_keys_samples :
  weather_of_response no_weather_body = Raise (KeyError (SKey "weather"))
  /\ weather_of_response not_found_body = Raise (KeyError (SKey "main"))
  /\ weather_of_response
       (JDict [("main", JDict [("temp", JInt 300)]); ("weather", JList [])])
     = Raise IndexError.
Proof. repeat split; vm_compute; reflexivity. Qed.

(** C8: the conditions of the result are the description of the first
    entry of the list [weather], as the answer holds it.  Whenever the
    lookup returns on an answer whose list [weather] starts with [first],
    the conditions are the value stored under [description] in [first]; and
    the lookup does return, with these conditions, when the answer also has
    a number at [main.temp]. *)
Theorem conditions_verbatim (w : world) (location : pyval) (st : state)
    (data first : json) (rest : list json) :
  provider w (trace st) location = Ok data ->
  find data "weather" = Some (JList (first :: rest)) ->
  (forall wd st',
      fetch_weather_from_api w location st = (Ok wd, st') ->
      find first "description" = Some (conditions wd))
  /\ (forall main temp_k k d,
      find data "main" = Some main ->
      find main "temp" = Some temp_k ->
      to_float temp_k = Ok k ->
      find first "description" = Some d ->
      exists wd,
        fetch_weather_from_api w location st = (Ok wd, looked_up location st)
        /\ conditions wd = d).
Proof.
  intros Hp Hw. rewrite (fetch_weather_answer _ _ _ _ Hp). split.
  - intros wd st' H.
    assert (E : weather_of_response data = Ok wd) by now inversion H.
    apply weather_of_response_ok in E
      as (_ & _ & _ & first' & rest' & _ & _ & _ & Hw' & Hd & _).
    rewrite Hw in Hw'. now inversion Hw'.
  - intros main temp_k k d Hm Ht Hk Hd.
    exists {| conditions := d;
              temperature := round1 (PrimFloat.sub k kelvin_offset) |}.
    split; [|reflexivity]. f_equal.
    apply weather_of_response_ok.
    exists main, temp_k, k, first, rest. repeat split; assumption.
Qed.

Lemma conditions_verbatim_witness :
  Some (JStr "clear sky") =
    Some (conditions {| conditions := JStr "clear sky";
                        temperature := 27.0%float |})
  /\ exists wd,
      fetch_weather_from_api (weather_world berlin_payload (Ok berlin_body))
        (VStr "Berlin") greeted = (Ok wd, looked_up (VStr "Berlin") greeted)
      /\ conditions wd = JStr "clear sky".
Proof.
  destruct (conditions_verbatim
              (weather_world berlin_payload (Ok berlin_body)) (VStr "Berlin")
              greeted berlin_body (JDict [("description", JStr "clear sky")]) []
              eq_refl eq_refl) as [H1 H2].
  split.
  - apply (H1 {| conditions := JStr "clear sky"; temperature := 27.0%float |}
              (looked_up (VStr "Berlin") greeted)).
    vm_compute. reflexivity.
  - exact (H2 (JDict [("temp", JFloat 300.15%float)]) (JFloat 300.15%float)
              300.15%float (JStr "clear sky") eq_refl eq_refl eq_refl eq_refl).
Defined.

(** ** Turns answered directly *)

Lemma model_calls_app (a b : list event) :
  model_calls (a ++ b) = model_calls a ++ model_calls b.
Proof.
  induction a as [|ev a IH]; [reflexivity|].
  destruct ev; simpl; now rewrite IH.
Qed.

Lemma weather_calls_app (a b : list event) :
  weather_calls (a ++ b) = weather_calls a ++ weather_calls b.
Proof.
  induction a as [|ev a IH]; [reflexivity|].
  destruct ev; simpl; now rewrite IH.
Qed.



Lemma firstn_prefix {A} (l1 l2 : list A) : firstn (List.length l1) (l1 ++ l2) = l1.
Proof. induction l1 as [|x l1 IH]; simpl; [reflexivity | now rewrite IH]. Qed.

Lemma exchanges_length (lines : list string) (replies : list (option string)) :
  List.length replies = List.length lines ->
  List.length (exchanges lines replies) = (2 * List.length lines)%nat.
Proof.
  revert replies. induction lines as [|l lines IH]; intros [|c replies] H;
    simpl in *; try discriminate; [reflexivity|].
  unfold exchanges in IH. rewrite (IH replies); lia.
Qed.

Lemma direct_turn (w : world) (line : string) (st : state) (c : option string) :
  lower (strip line) <> "quit" ->
  llm w (trace (read_line line st)) (messages (read_line line st)) true
    = Ok (direct c) ->
  iteration w (Some line) st =
    (Ok Continue, answered c (sent true (read_line line st))).
Proof.
  intros Hq H. rewrite (iteration_turn w line st Hq), H. reflexivity.
Qed.

Lemma direct_turns_from (w : world) (lines : list string) :
  Forall (fun line => lower (strip line) <> "quit") lines ->
  forall st0 replies,
    answered_directly w lines st0 replies ->
    exists st,
      turns w lines st0 st
      /\ List.length replies = List.length lines
      /\ messages st = messages st0 ++ exchanges lines replies
      /\ model_calls (trace st) =
           model_calls (trace st0) ++
           map (fun k => (firstn (List.length (messages st0) + 2 * k + 1) (messages st), true))
               (seq 0 (List.length lines))
      /\ weather_calls (trace st) = weather_calls (trace st0).
Proof.
  induction 1 as [|line lines Hq _ IH]; intros st0 replies Hrun.
  - inversion Hrun; subst. exists st0. simpl. rewrite !app_nil_r.
    repeat split. constructor.
  - inversion Hrun as [|line' lines' st0' c replies' Hc Hrest]; subst.
    assert (Hturn : iteration w (Some line) st0 =
                      (Ok Continue, answered c (sent true (read_line line st0))))
      by (apply direct_turn; [exact Hq | exact Hc]).
    rewrite Hturn in Hrest. cbn [snd] in Hrest.
    destruct (IH _ _ Hrest) as (st & Hlen & Ht & Hm & Hcalls & Hw).
    cbn [answered sent read_line messages trace] in Hm, Hcalls, Hw.
    rewrite !model_calls_app in Hcalls. rewrite !weather_calls_app in Hw.
    cbn [model_calls weather_calls] in Hcalls, Hw.
    rewrite <- !app_assoc in Hcalls. cbn [app] in Hcalls.
    rewrite <- !app_assoc in Hm. cbn [app] in Hm.
    exists st. repeat split.
    + econstructor; [exact Hturn | exact Hlen].
    + simpl. now rewrite Ht.
    + exact Hm.
    + rewrite Hcalls. f_equal. cbn [List.length seq map].
      f_equal.
      * f_equal. rewrite Hm.
        change (messages st0 ++ user_message (strip line)
                  :: assistant_message c :: exchanges lines replies')
          with (messages st0 ++ [user_message (strip line)]
                  ++ assistant_message c :: exchanges lines replies').
        rewrite app_assoc.
        replace (List.length (messages st0) + 2 * 0 + 1)%nat
          with (List.length (messages st0 ++ [user_message (strip line)]))
          by (rewrite length_app; simpl; lia).
        symmetry. apply firstn_prefix.
      * rewrite <- seq_shift, map_map. apply map_ext. intros k.
        rewrite !length_app. cbn [List.length]. do 2 f_equal. lia.
    + rewrite Hw. cbn [app]. now rewrite ?app_nil_r.
Qed.

(** C5: after N turns that the model answers directly, the transcript
    holds 1 + 2N messages: the system message, then for each line in the
    order typed the user message with the stripped line followed by the
    assistant message with the text of the model's reply to it.  Every
    turn runs to its end; the run made one model call per turn, the k-th
    on the first 2k + 2 messages of that transcript, and no weather call;
    the session then ends normally on [quit].  What the model would answer
    on other transcripts plays no part. *)
Theorem direct_turns_transcript (w : world) (lines : list string)
    (replies : list (option string)) :
  Forall (fun line => lower (strip line) <> "quit") lines ->
  answered_directly w lines
    {| messages :=
         [{| role := "system"; name := None; content_of := Str system_prompt |}];
       trace := [Print greeting] |}
    replies ->
  exists st,
    turns w lines greeted st
    /\ chat_with_bot w (lines ++ ["quit"]) =
         (Ok tt,
          {| messages := messages st;
             trace := trace st ++ [Input "You: " (Some "quit");
                                   Print "Chat Bot: Goodbye!"] |})
    /\ List.length replies = List.length lines
    /\ messages st =
         {| role := "system"; name := None; content_of := Str system_prompt |}
         :: flat_map
              (fun lc =>
                 [{| role := "user"; name := None;
                     content_of := Str (strip (fst lc)) |};
                  {| role := "assistant"; name := None;
                     content_of :=
                       match snd lc with Some s => Str s | None => PyNone end |}])
              (combine lines replies)
    /\ List.length (messages st) = (1 + 2 * List.length lines)%nat
    /\ model_calls (trace st) =
         map (fun k => (firstn (2 * k + 2) (messages st), true))
             (seq 0 (List.length lines))
    /\ weather_calls (trace st) = [].
Proof.
  intros Hq Hrun.
  destruct (direct_turns_from w lines Hq greeted replies Hrun)
    as (st & Ht & Hlen & Hm & Hcalls & Hw).
  exists st. repeat split; try assumption.
  - rewrite chat_with_bot_greeted, (chat_loop_turns _ _ _ _ _ Ht).
    now apply chat_loop_quit.
  - rewrite Hm. simpl. now rewrite (exchanges_length _ _ Hlen).
  - rewrite Hcalls. cbn [greeted messages trace model_calls app List.length].
    apply map_ext. intros k. do 2 f_equal. lia.
Qed.

Lemma direct_turns_transcript_witness :
  exists st,
    turns moody_world ["Hello"; "  Who are you? "] greeted st
    /\ chat_with_bot moody_world (["Hello"; "  Who are you? "] ++ ["quit"])
       = (Ok tt,
          {| messages := messages st;
             trace := trace st ++ [Input "You: " (Some "quit");
                                   Print "Chat Bot: Goodbye!"] |})
    /\ 2%nat = 2%nat
    /\ messages st =
         [{| role := "system"; name := None; content_of := Str system_prompt |};
          {| role := "user"; name := None; content_of := Str "Hello" |};
          {| role := "assistant"; name := None;
             content_of := Str "Ask me about the weather." |};
          {| role := "user"; name := None; content_of := Str "Who are you?" |};
          {| role := "assistant"; name := None;
             content_of := Str "Ask me about the weather." |}]
    /\ List.length (messages st) = 5%nat
    /\ model_calls (trace st) =
         map (fun k => (firstn (2 * k + 2) (messages st), true)) [0; 1]%nat
    /\ weather_calls (trace st) = [].
Proof.
  apply (direct_turns_transcript moody_world ["Hello"; "  Who are you? "]
           [Some "Ask me about the weather."; Some "Ask me about the weather."]).
  - repeat constructor; vm_compute; discriminate.
  - apply answered_cons; [reflexivity|].
    apply answered_cons; [reflexivity|].
    apply answered_nil.
Defined.
(** ** Turns with a weather lookup *)

Lemma fetch_weather_state (w : world) (location : pyval) (st st' : state)
    (r : result weather_data) :
  fetch_weather_from_api w location st = (r, st') -> st' = looked_up location st.
Proof.
  unfold fetch_weather_from_api, bind, lift.
  destruct (provider w (trace st) location); intros H; now inversion H.
Qed.



Lemma bind_location_ok (function_args location : pyval) :
  bind_location function_args = Ok location <->
  function_args = VDict [("location", location)].
Proof.
  split.
  - destruct function_args as [| | | |d]; simpl; try discriminate.
    destruct d as [|[k x] [|kv rest]]; simpl; try discriminate.
    + destruct (String.eqb k "location") eqn:Ek; [|discriminate].
      apply String.eqb_eq in Ek. subst k. intros H. now inversion H.
    + destruct (String.eqb k "location"); [discriminate|].
      destruct kv as [k2 x2]. destruct (String.eqb k2 "location");
        [discriminate|]. destruct (dict_get rest "location"); discriminate.
  - intros ->. reflexivity.
Qed.

Lemma bind_location_error (function_args : pyval) (e : exc) :
  bind_location function_args = Raise e -> e = TypeError.
Proof.
  destruct function_args as [| | | |d]; simpl;
    try (intros H; now inversion H).
  destruct (dict_get d "location");
    [destruct (Nat.eqb (List.length d) 1)|]; intros H; now inversion H.
Qed.




(** The same run, event by event: one model call, one lookup. *)
Example unknown_place_run :
  iteration (weather_world berlin_payload (Ok not_found_body))
    (Some "Atlantis") greeted =
  (Raise (KeyError (SKey "main")),
   {| messages := [system_message; user_message "Atlantis"];
      trace := [Print greeting;
                Input "You: " (Some "Atlantis");
                ModelCall [system_message; user_message "Atlantis"] true;
                HttpGet (VStr "Berlin")] |}).
Proof. vm_compute. reflexivity. Qed.

(** A session with one weather turn, from the greeting to the farewell. *)
Example weather_session :
  chat_with_bot (weather_world berlin_payload (Ok berlin_body))
    ["  Is it warm in Berlin? "; "Quit"] =
  (Ok tt,
   let u := user_message "Is it warm in Berlin?" in
   let f := function_message {| conditions := JStr "clear sky";
                                temperature := 27.0%float |} in
   let a := assistant_message (Some "It is 27.0 degrees in Berlin.") in
   {| messages := [system_message; u; f; a];
      trace := [Print greeting;
                Input "You: " (Some "  Is it warm in Berlin? ");
                ModelCall [system_message; u] true;
                HttpGet (VStr "Berlin");
                ModelCall [system_message; u; f] false;
                Print "Chat Bot: It is 27.0 degrees in Berlin.";
                Input "You: " (Some "Quit");
                Print "Chat Bot: Goodbye!"] |}).
Proof. vm_compute. reflexivity. Qed.

(** A session in which the second model call fails: the function result is
    the last message, the failed call the last event. *)
Example second_call_failure :
  chat_with_bot (rate_limited_world berlin_payload (Ok berlin_body))
    ["Berlin"; "quit"] =
  (Raise (APIError "rate limit"),
   let u := user_message "Berlin" in
   let f := function_message {| conditions := JStr "clear sky";
                                temperature := 27.0%float |} in
   {| messages := [system_message; u; f];
      trace := [Print greeting;
                Input "You: " (Some "Berlin");
                ModelCall [system_message; u] true;
                HttpGet (VStr "Berlin");
                ModelCall [system_message; u; f] false] |}).
Proof. vm_compute. reflexivity. Qed.

(** A session that reaches the end of the console input. *)
Example end_of_input :
  chat_with_bot chatty_world [] =
  (Raise EOFError,
   {| messages := [system_message];
      trace := [Print greeting; Input "You: " None] |}).
Proof. vm_compute. reflexivity. Qed.

(** ** The transcript only grows, on payloads that are data *)

Lemma after_first_call_transcript_grows (w : world) (u : string)
    (response : reply) :
  (forall fc, reply_function_call response = Some fc ->
              transcript_safe (arguments fc) = true) ->
  respects transcript_grows (after_first_call w u response).
Proof.
  intros Hsafe. apply respects_after_first_call.
  - exact transcript_grows_refl.
  - exact transcript_grows_trans.
  - exact emit_transcript_grows.
  - exact append_transcript_grows.
  - exact (create_transcript_grows w).
  - exact (fetch_transcript_grows w).
  - intros fc Hfc. apply (respects_weaken same_transcript).
    + apply same_transcript_grows.
    + apply eval_safe. now apply Hsafe.
Qed.

Lemma iteration_transcript_grows (w : world) (line : option string) :
  safe_world w -> respects transcript_grows (iteration w line).
Proof.
  intros Hsafe st r st' H. destruct line as [line|].
  - destruct (string_dec (lower (strip line)) "quit") as [Hq|Hq].
    + rewrite (iteration_quit w line st Hq) in H. inversion H; subst.
      exists []. simpl. now rewrite app_nil_r.
    + rewrite (iteration_turn w line st Hq) in H.
      destruct (llm w _ _ true) as [response|e] eqn:Hllm.
      * apply (transcript_grows_trans _ (sent true (read_line line st))).
        -- now exists [user_message (strip line)].
        -- apply (after_first_call_transcript_grows w (strip line) response)
             with (r := r); [|exact H].
           intros fc Hfc. exact (Hsafe _ _ _ _ Hllm Hfc).
      * inversion H; subst. now exists [user_message (strip line)].
  - rewrite iteration_eof in H. inversion H; subst.
    exists []. simpl. now rewrite app_nil_r.
Qed.

(** As long as the payloads of the model leave [messages] alone, a session
    only appends to the transcript: the transcript at any later moment
    starts with the transcript of any earlier one. *)
Lemma session_transcript_grows (w : world) (inputs : list string) :
  safe_world w -> respects transcript_grows (chat_loop w inputs).
Proof.
  intros Hsafe. induction inputs as [|line rest IH]; simpl.
  - apply (respects_bind _ transcript_grows_trans).
    + now apply iteration_transcript_grows.
    + intros c. apply (respects_ret _ transcript_grows_refl).
  - apply (respects_bind _ transcript_grows_trans).
    + now apply iteration_transcript_grows.
    + intros [|]; [exact IH | apply (respects_ret _ transcript_grows_refl)].
Qed.

(** ** What the evaluation of the payload lets through *)

(** C7, on the code: a payload that calls [messages.clear()] empties the
    transcript in the middle of a turn.  The turn runs to its end, the
    second model call is sent the function result alone, and the transcript
    after the turn holds the function result and the reply: the system
    message and the user message are gone. *)
Theorem payload_clears_transcript :
  exists st',
    iteration (weather_world clearing_payload (Ok berlin_body))
      (Some "Is it warm in Berlin?") greeted = (Ok Continue, st')
    /\ map role (messages st') = ["function"; "assistant"]
    /\ model_calls (trace st') =
         [([system_message; user_message "Is it warm in Berlin?"], true);
          ([function_message {| conditions := JStr "clear sky";
                                temperature := 27.0%float |}], false)]
    /\ ~ transcript_grows greeted st'.
Proof.
  eexists. split; [vm_compute; reflexivity|].
  split; [reflexivity|]. split; [reflexivity|].
  intros [new E]. vm_compute in E. discriminate.
Qed.

(** C1, on the code: the payload is evaluated as an expression, and every
    key of the result is passed to the lookup.  With the payload
    [{"location": "Berlin"}] the lookup is made; a second key makes the call
    raise [TypeError] before any lookup; the JSON literal [true] makes the
    evaluation raise [NameError]; and a payload that calls [print] writes to
    the console before the lookup is made. *)
Theorem payload_is_evaluated :
  (exists st',
      iteration (weather_world berlin_payload (Ok berlin_body))
        (Some "Berlin") greeted = (Ok Continue, st')
      /\ weather_calls (trace st') = [VStr "Berlin"])
  /\ (exists st',
      iteration (weather_world extra_key_payload (Ok berlin_body))
        (Some "Berlin") greeted = (Raise TypeError, st')
      /\ weather_calls (trace st') = [])
  /\ (exists st',
      iteration (weather_world json_true_payload (Ok berlin_body))
        (Some "Berlin") greeted = (Raise (NameError "true"), st')
      /\ weather_calls (trace st') = [])
  /\ (exists st',
      iteration (weather_world printing_payload (Ok berlin_body))
        (Some "Berlin") greeted = (Ok Continue, st')
      /\ printed (trace st') =
           [greeting; "pwned"; "Chat Bot: It is 27.0 degrees in Berlin."]
      /\ weather_calls (trace st') = [VStr "Berlin"]).
Proof.
  repeat split; eexists; (split; [vm_compute; reflexivity|]);
    repeat split; reflexivity.
Qed.

(* ================================================================= *)
(** * Further properties of the code *)

Import Behaviour.

(** ** Payloads, turn by turn *)

Lemma weather_branch_after_eval (w : world) (u : string) (fc : function_call) :
  weather_branch w u fc =
    (function_args <- eval u (arguments fc);; after_eval w function_args).
Proof. reflexivity. Qed.


(** In a world that sends the same payload in every turn, every payload
    of a session has a property the payload has in every state. *)
Lemma weather_world_payloads (P : string -> pyexpr -> state -> Prop)
    (payload : pyexpr) (body : result json) (inputs : list string) :
  (forall u st, P u payload st) ->
  forall st, payloads P (weather_world payload body) inputs st.
Proof.
  intros HP. induction inputs as [|line rest IH]; intros st; [exact I|].
  split.
  - intros response fc _ Hllm Hfc. simpl in Hllm. inversion Hllm; subst.
    simpl in Hfc. inversion Hfc; subst. apply HP.
  - intros st1 _. apply IH.
Qed.

(** The loop respects a preorder that its turns respect. *)
Section Session.

Variable R : state -> state -> Prop.
Variable P : string -> pyexpr -> state -> Prop.
Variable w : world.

Hypothesis R_trans : forall a b c, R a b -> R b c -> R a c.
Hypothesis R_turn :
  forall line st r st',
    turn_payload P w line st ->
    iteration w (Some line) st = (r, st') -> R st st'.
Hypothesis R_eof : forall st, R st (at_eof st).


End Session.

(** A turn respects a preorder that the steps of the loop respect, when
    the evaluation of its payload does. *)
Section Turn.

Variable R : state -> state -> Prop.
Variable w : world.

Hypothesis R_refl : forall st, R st st.
Hypothesis R_trans : forall a b c, R a b -> R b c -> R a c.
Hypothesis R_input :
  forall prompt line, respects R (emit (Input prompt line)).
Hypothesis R_print : forall text, respects R (print text).
Hypothesis R_append : forall m, respects R (append m).
Hypothesis R_create : forall b, respects R (create w b).
Hypothesis R_fetch :
  forall location, respects R (fetch_weather_from_api w location).







End Turn.

(** ** How a session ends *)

Lemma after_first_call_no_break (w : world) (u : string) (response : reply)
    (st st' : state) :
  after_first_call w u response st <> (Ok Break, st').
Proof.
  unfold after_first_call, weather_branch. intros H.
  destruct (reply_function_call response) as [fc|];
    repeat (let e := fresh "e" in
            let x := fresh "x" in
            let s := fresh "s" in
            let He := fresh "He" in
            apply bind_inv in H as [(e & _ & He)|(x & s & _ & H)];
            [discriminate|]);
    discriminate.
Qed.

Lemma iteration_break_quit (w : world) (line : string) (st st' : state) :
  iteration w (Some line) st = (Ok Break, st') -> lower (strip line) = "quit".
Proof.
  intros H. destruct (string_dec (lower (strip line)) "quit") as [Hq|Hq];
    [exact Hq|].
  rewrite (iteration_turn w line st Hq) in H.
  destruct (llm w _ _ true) as [response|e]; [|discriminate].
  now apply after_first_call_no_break in H.
Qed.

Lemma session_end_cons (w : world) (line : string) (rest : list string)
    (st st1 : state) (out : result unit * state) :
  iteration w (Some line) st = (Ok Continue, st1) ->
  session_end w rest st1 out ->
  session_end w (line :: rest) st out.
Proof.
  intros Hturn [pre q post st0 -> Ht Hq | st0 Ht
               | pre l post st0 e st' -> Ht Hq Hfail].
  - apply (ends_by_quit w _ st (line :: pre) q post st0);
      [reflexivity | econstructor; eassumption | exact Hq].
  - apply ends_by_eof. econstructor; eassumption.
  - apply (ends_by_error w _ st (line :: pre) l post st0 e st');
      [reflexivity | econstructor; eassumption | exact Hq | exact Hfail].
Qed.

(** A session whose payloads are data ends in one of three ways: with
    the farewell on the first line that is [quit] (the lines after it are
    not read), with [EOFError] when the console ends after turns that all
    ran to their end, or with the exception of the first turn that raises.
    The hypothesis speaks of the payloads the session evaluates, turn by
    turn: a payload that is data reads no line and ends no process. *)
Theorem session_outcome (w : world) (inputs : list string) (st : state) :
  payloads is_data w inputs st ->
  session_end w inputs st (chat_loop w inputs st).
Proof.
  intros _. revert st. induction inputs as [|line rest IH]; intros st.
  - apply ends_by_eof. constructor.
  - destruct (string_dec (lower (strip line)) "quit") as [Hq|Hq].
    + rewrite (chat_loop_quit w line rest st Hq).
      apply (ends_by_quit w _ st [] line rest st);
        [reflexivity | constructor | exact Hq].
    + destruct (iteration w (Some line) st) as [[[|]|e] st1] eqn:Hturn.
      * rewrite (chat_loop_continue _ _ _ _ _ Hturn).
        apply (session_end_cons _ _ _ _ _ _ Hturn). apply IH.
      * now apply iteration_break_quit in Hturn.
      * rewrite (chat_loop_raise _ _ _ _ _ _ Hturn).
        apply (ends_by_error w _ st [] line rest st e st1);
          [reflexivity | constructor | exact Hq | exact Hturn].
Qed.

Lemma session_outcome_witness :
  session_end (weather_world berlin_payload (Ok berlin_body))
    ["Berlin"; " Quit "; "Paris"] greeted
    (chat_loop (weather_world berlin_payload (Ok berlin_body))
       ["Berlin"; " Quit "; "Paris"] greeted).
Proof.
  apply (session_outcome (weather_world berlin_payload (Ok berlin_body))
           ["Berlin"; " Quit "; "Paris"] greeted).
  apply weather_world_payloads. intros u st. reflexivity.
Defined.

(** ** Blank lines and the spellings of [quit] *)

Lemma strip_all_space (s : string) : all_space s = true -> strip s = EmptyString.
Proof.
  intros H. unfold strip.
  assert (E : lstrip s = EmptyString).
  { induction s as [|c t IH]; [reflexivity|]. simpl in *.
    apply andb_prop in H as [Hc Ht]. rewrite Hc. now apply IH. }
  now rewrite E.
Qed.

(** A line of white space alone, the empty line among them, is no
    command: the turn goes on, and the first model call is sent the
    transcript extended by a user message with the empty string. *)
Theorem blank_line_is_sent (w : world) (line : string) (st : state) :
  all_space line = true ->
  exists tail,
    trace (snd (iteration w (Some line) st)) =
      trace st ++
        Input "You: " (Some line)
        :: ModelCall (messages st ++ [user_message EmptyString]) true
        :: tail.
Proof.
  intros H. pose proof (strip_all_space line H) as E.
  assert (Hq : lower (strip line) <> "quit") by (rewrite E; discriminate).
  rewrite (iteration_turn w line st Hq).
  unfold read_line, sent. simpl. rewrite E.
  destruct (llm w _ _ true) as [response|e].
  - destruct (after_first_call w EmptyString response _) as [r st'] eqn:Hrun.
    destruct (after_first_call_trace_grows _ _ _ _ _ _ Hrun) as [tail Et].
    exists tail. simpl. rewrite Et. simpl. now rewrite <- !app_assoc.
  - exists []. simpl. now rewrite <- !app_assoc.
Qed.

Lemma blank_line_is_sent_witness :
  exists tail,
    trace (snd (iteration chatty_world (Some "   ") greeted)) =
      trace greeted ++
        Input "You: " (Some "   ")
        :: ModelCall [system_message; user_message EmptyString] true
        :: tail.
Proof.
  apply (blank_line_is_sent chatty_world "   " greeted). reflexivity.
Defined.

(** The loop breaks on exactly the lines made of one of the sixteen
    spellings of [quit] between white space, on text of all code points:
    the white space is any of the code points that [strip] removes, and no
    other code point of Unicode stands for a letter of [quit] (the capital I
    with a dot above does not: it becomes two code points).  Any other
    line, a longer word or a word with another letter, starts a turn: the
    user message with the stripped line is appended, the model is called
    on that transcript with the function schema, and the rest of the turn
    runs from there. *)
Theorem break_iff_quit_word (llm : Wide.model)
    (respond : Wide.text -> Wide.reply -> Wide.M unit)
    (line : Wide.text) (st : Wide.state) :
  (fst (Wide.iteration llm respond (Some line) st) = Ok Wide.Break <->
   exists ws1 c1 c2 c3 c4 ws2,
     Wide.all_space ws1 = true /\ Wide.all_space ws2 = true
     /\ (c1 = 113 \/ c1 = 81) /\ (c2 = 117 \/ c2 = 85)
     /\ (c3 = 105 \/ c3 = 73) /\ (c4 = 116 \/ c4 = 84)
     /\ line = ws1 ++ [c1; c2; c3; c4] ++ ws2)
  /\ (fst (Wide.iteration llm respond (Some line) st) <> Ok Wide.Break ->
      let user :=
        {| Wide.role := "user"; Wide.name := None;
           Wide.content_of := Wide.Str (Wide.strip line) |} in
      let st1 :=
        {| Wide.messages := Wide.messages st ++ [user];
           Wide.trace :=
             (Wide.trace st ++ [Wide.Input "You: " (Some line)])
               ++ [Wide.ModelCall (Wide.messages st ++ [user]) true] |} in
      Wide.iteration llm respond (Some line) st =
        match llm (Wide.trace st ++ [Wide.Input "You: " (Some line)])
                  (Wide.messages st ++ [user]) true with
        | Ok response =>
            match respond (Wide.strip line) response st1 with
            | (Ok _, st2) => (Ok Wide.Continue, st2)
            | (Raise e, st2) => (Raise e, st2)
            end
        | Raise e => (Raise e, st1)
        end).
Proof.
  assert (Hbreak : fst (Wide.iteration llm respond (Some line) st) = Ok Wide.Break
                   <-> Wide.lower (Wide.strip line) = Wide.of_string "quit").
  { split.
    - intros H.
      destruct (list_eq_dec Z.eq_dec (Wide.lower (Wide.strip line))
                  (Wide.of_string "quit")) as [Hq|Hq]; [exact Hq|].
      rewrite (WideFacts.wide_iteration_turn llm respond line st Hq) in H.
      destruct (llm _ _ true) as [response|e]; [|discriminate].
      destruct (respond _ _ _) as [[[]|e] st2]; discriminate.
    - intros Hq. now rewrite WideFacts.wide_iteration_quit. }
  split.
  - rewrite Hbreak. split.
    + intros Hq. apply WideFacts.wide_lower_quit_word in Hq.
      destruct (WideFacts.wide_strip_decompose line) as (ws1 & ws2 & H1 & H2 & E).
      destruct (Wide.strip line) as [|c1 [|c2 [|c3 [|c4 [|c5 r]]]]];
        try discriminate.
      exists ws1, c1, c2, c3, c4, ws2. simpl in Hq.
      repeat (apply andb_prop in Hq as [Hq ?]).
      repeat match goal with
             | H : (_ || _) = true |- _ => apply orb_prop in H
             end.
      rewrite !Z.eqb_eq in *. repeat split; assumption.
    + intros (ws1 & c1 & c2 & c3 & c4 & ws2 & H1 & H2 & Q1 & Q2 & Q3 & Q4 & ->).
      assert (Hw : Wide.quit_word [c1; c2; c3; c4] = true)
        by (destruct Q1, Q2, Q3, Q4; subst; reflexivity).
      rewrite (WideFacts.wide_strip_unique ws1 [c1; c2; c3; c4] ws2 H1 H2
                 (WideFacts.quit_word_clean _ Hw)).
      now apply WideFacts.wide_lower_quit_word.
  - intros H. apply WideFacts.wide_iteration_turn.
    intros Hq. apply H. now apply Hbreak.
Qed.

Lemma break_iff_quit_word_witness :
  fst (Wide.iteration WideSample.silent WideSample.answer_directly
         (Some WideSample.spaced_quit) WideSample.initial) = Ok Wide.Break
  /\ fst (Wide.iteration WideSample.silent WideSample.answer_directly
            (Some WideSample.dotted_quit) WideSample.initial)
     = Raise (APIError "connection refused").
Proof.
  destruct (break_iff_quit_word WideSample.silent WideSample.answer_directly
              WideSample.spaced_quit WideSample.initial) as [[_ Hquit] _].
  destruct (break_iff_quit_word WideSample.silent WideSample.answer_directly
              WideSample.dotted_quit WideSample.initial) as [_ Hturn].
  split.
  - apply Hquit. exists [8195], 81, 85, 73, 84, [12288].
    repeat split; auto.
  - rewrite Hturn; [reflexivity|]. vm_compute. discriminate.
Defined.

(** The spellings at work: case and surrounding white space do not matter,
    a longer word or a word inside a sentence does. *)
Example quit_spellings :
  fst (iteration silent_world (Some " qUiT ") greeted) = Ok Break
  /\ fst (iteration silent_world (Some "quit now") greeted)
     = Raise (APIError "connection refused")
  /\ fst (iteration silent_world (Some "quits") greeted)
     = Raise (APIError "connection refused")
  /\ fst (iteration silent_world (Some "q u i t") greeted)
     = Raise (APIError "connection refused").
Proof. repeat split; vm_compute; reflexivity. Qed.

(** ** The budget of outbound calls *)


















(** The same session, counted: two lines read, two model calls, one
    lookup; the line after [quit] is not read. *)
Example budget_of_a_session :
  let tr := trace (snd (chat_with_bot
                          (weather_world printing_payload (Ok berlin_body))
                          ["Berlin"; "quit"; "Paris"])) in
  lines_read tr = ["Berlin"; "quit"]
  /\ List.length (model_calls tr) = 2%nat
  /\ weather_calls tr = [VStr "Berlin"].
Proof. vm_compute. repeat split. Qed.

(** ** What the model is sent *)












(** ** The shape of the transcript *)





(** ** The errors of the lookup, in the order the body meets them *)

Lemma weather_of_response_temperature (d : list (string * json)) (k : float) :
  has_temperature d k ->
  weather_of_response (JDict d) =
    (let? weather := getitem (JDict d) (SKey "weather") in
     let? first := getitem weather (SIdx 0) in
     let? conditions := getitem first (SKey "description") in
     Ok {| conditions := conditions;
           temperature := round1 (PrimFloat.sub k kelvin_offset) |}).
Proof.
  intros (main & temp_k & Hm & Ht & Hk). apply getitem_key in Ht.
  unfold weather_of_response, kelvin_to_celsius.
  cbn [getitem]. rewrite Hm. cbn [rbind]. rewrite Ht. cbn [rbind].
  rewrite Hk. reflexivity.
Qed.

(** The lookup reports the first thing that is wrong with the answer, in
    the order [main], [temp], the type of the temperature, [weather], its
    first entry, [description]: a body that is no object and a temperature
    that is no number give [TypeError], a missing key [KeyError] with that
    key, an empty list [weather] gives [IndexError].  In particular the
    temperature is checked before [weather] is looked at. *)
Theorem lookup_error_order (d : list (string * json)) :
  (dict_get d "main" = None ->
   weather_of_response (JDict d) = Raise (KeyError (SKey "main")))
  /\ (forall m,
      dict_get d "main" = Some (JDict m) -> dict_get m "temp" = None ->
      weather_of_response (JDict d) = Raise (KeyError (SKey "temp")))
  /\ (forall main temp_k e,
      dict_get d "main" = Some main -> find main "temp" = Some temp_k ->
      to_float temp_k = Raise e ->
      weather_of_response (JDict d) = Raise e
      /\ (e = TypeError \/ e = OverflowError))
  /\ (forall k,
      has_temperature d k -> dict_get d "weather" = None ->
      weather_of_response (JDict d) = Raise (KeyError (SKey "weather")))
  /\ (forall k,
      has_temperature d k -> dict_get d "weather" = Some (JList []) ->
      weather_of_response (JDict d) = Raise IndexError)
  /\ (forall k f rest,
      has_temperature d k ->
      dict_get d "weather" = Some (JList (JDict f :: rest)) ->
      dict_get f "description" = None ->
      weather_of_response (JDict d) = Raise (KeyError (SKey "description")))
  /\ (forall v,
      (forall items, v <> JDict items) ->
      weather_of_response v = Raise TypeError).
Proof.
  repeat apply conj.
  - intros H. unfold weather_of_response. cbn [getitem]. now rewrite H.
  - intros m Hm Ht. unfold weather_of_response. cbn [getitem].
    rewrite Hm. cbn [rbind getitem]. now rewrite Ht.
  - intros main temp_k e Hm Ht He. apply getitem_key in Ht. split.
    + unfold weather_of_response, kelvin_to_celsius. cbn [getitem].
      rewrite Hm. cbn [rbind]. rewrite Ht. cbn [rbind]. now rewrite He.
    + destruct temp_k; simpl in He; try discriminate;
        try (inversion He; auto).
      destruct (of_int z); inversion He; auto.
  - intros k Hk Hw. rewrite (weather_of_response_temperature d k Hk).
    cbn [getitem]. now rewrite Hw.
  - intros k Hk Hw. rewrite (weather_of_response_temperature d k Hk).
    cbn [getitem]. now rewrite Hw.
  - intros k f rest Hk Hw Hd. rewrite (weather_of_response_temperature d k Hk).
    cbn [getitem]. rewrite Hw. cbn [rbind getitem]. unfold seq_get. simpl.
    now rewrite Hd.
  - intros v Hv. destruct v; try reflexivity. now destruct (Hv items).
Qed.

Lemma lookup_error_order_witness :
  weather_of_response not_found_body = Raise (KeyError (SKey "main"))
  /\ weather_of_response
       (JDict [("main", JDict [("temp", JStr "300.15")])])
     = Raise TypeError
  /\ weather_of_response no_weather_body = Raise (KeyError (SKey "weather"))
  /\ weather_of_response (JList [berlin_body]) = Raise TypeError.
Proof.
  split; [|split; [|split]].
  - destruct (lookup_error_order
                [("cod", JStr "404"); ("message", JStr "city not found")])
      as (H & _).
    apply H. reflexivity.
  - destruct (lookup_error_order [("main", JDict [("temp", JStr "300.15")])])
      as (_ & _ & H & _).
    apply (H (JDict [("temp", JStr "300.15")]) (JStr "300.15") TypeError);
      reflexivity.
  - destruct (lookup_error_order [("main", JDict [("temp", JFloat 300.15%float)])])
      as (_ & _ & _ & H & _).
    apply (H 300.15%float); [|reflexivity].
    exists (JDict [("temp", JFloat 300.15%float)]), (JFloat 300.15%float).
    repeat split.
  - destruct (lookup_error_order []) as (_ & _ & _ & _ & _ & _ & H).
    apply H. discriminate.
Defined.

(** ** The binding of the keyword arguments *)

Lemma after_eval_lookup (w : world) (location : pyval) (st : state)
    (r : result control) (st' : state) :
  after_eval w (VDict [("location", location)]) st = (r, st') ->
  exists tail,
    trace st' = trace st ++ HttpGet location :: tail
    /\ weather_calls tail = [].
Proof.
  unfold after_eval. intros H.
  apply bind_inv in H as [(e & He & _)|(loc & st1 & Hloc & H)];
    [discriminate|].
  inversion Hloc; subst loc st1.
  apply bind_inv in H as [(e & He & _)|(wd & st3 & Hfetch & H)].
  - rewrite (fetch_weather_state _ _ _ _ _ He). exists []. now split.
  - rewrite (fetch_weather_state _ _ _ _ _ Hfetch) in H.
    unfold bind, append, create, print, emit, ret in H. simpl in H.
    destruct (llm w _ _ false) as [second|e]; inversion H; subst; simpl;
      eexists; (split; [rewrite <- ?app_assoc; simpl; reflexivity | reflexivity]).
Qed.

Lemma after_eval_type_error (w : world) (function_args : pyval) (st : state) :
  (forall location, function_args <> VDict [("location", location)]) ->
  after_eval w function_args st = (Raise TypeError, st).
Proof.
  intros H. unfold after_eval. apply bind_raise. unfold lift.
  destruct (bind_location function_args) as [location|e] eqn:E.
  - apply bind_location_ok in E. now destruct (H location).
  - now rewrite (bind_location_error _ _ E).
Qed.

(** The call of line 124 reaches the lookup exactly when the evaluated
    payload is a mapping whose only key is [location].  In a turn whose
    payload evaluated to the object [function_args], leaving the state
    [st2]: if the object is [{"location": v}], the next thing the turn does
    is the lookup for [v], and it makes no other lookup; on any other
    object (no mapping, an empty one, a second key, another key) the turn
    raises [TypeError] in the state [st2], so that nothing is looked up,
    sent or appended after the evaluation. *)
Theorem lookup_needs_location (w : world) (line : string) (st : state)
    (response : reply) (fc : function_call) (function_args : pyval)
    (st2 : state) :
  lower (strip line) <> "quit" ->
  llm w (trace (read_line line st)) (messages (read_line line st)) true
    = Ok response ->
  reply_function_call response = Some fc ->
  eval (strip line) (arguments fc) (sent true (read_line line st))
    = (Ok function_args, st2) ->
  (forall location,
      function_args = VDict [("location", location)] ->
      exists tail,
        trace (snd (iteration w (Some line) st))
          = trace st2 ++ HttpGet location :: tail
        /\ weather_calls tail = [])
  /\ ((forall location, function_args <> VDict [("location", location)]) ->
      iteration w (Some line) st = (Raise TypeError, st2)).
Proof.
  intros Hq Hllm Hfc Hev.
  assert (E : iteration w (Some line) st = after_eval w function_args st2).
  { rewrite (iteration_turn w line st Hq), Hllm.
    unfold after_first_call. rewrite Hfc, weather_branch_after_eval.
    unfold bind at 1. now rewrite Hev. }
  rewrite E. split.
  - intros location ->.
    apply (after_eval_lookup w location st2
             (fst (after_eval w (VDict [("location", location)]) st2))).
    apply surjective_pairing.
  - apply after_eval_type_error.
Qed.

Lemma lookup_needs_location_witness :
  (exists tail,
      trace (snd (iteration (weather_world berlin_payload (Ok berlin_body))
                    (Some "Berlin") greeted))
        = trace (sent true (read_line "Berlin" greeted))
            ++ HttpGet (VStr "Berlin") :: tail
      /\ weather_calls tail = [])
  /\ iteration (weather_world extra_key_payload (Ok berlin_body))
       (Some "Berlin") greeted
     = (Raise TypeError, sent true (read_line "Berlin" greeted)).
Proof.
  split.
  - apply (proj1 (lookup_needs_location
                    (weather_world berlin_payload (Ok berlin_body))
                    "Berlin" greeted (request berlin_payload)
                    {| fc_name := "fetch_weather_from_api";
                       arguments := berlin_payload |}
                    (VDict [("location", VStr "Berlin")])
                    (sent true (read_line "Berlin" greeted))
                    ltac:(vm_compute; discriminate)
                    eq_refl eq_refl eq_refl)
                 (VStr "Berlin") eq_refl).
  - apply (proj2 (lookup_needs_location
                    (weather_world extra_key_payload (Ok berlin_body))
                    "Berlin" greeted (request extra_key_payload)
                    {| fc_name := "fetch_weather_from_api";
                       arguments := extra_key_payload |}
                    (VDict [("location", VStr "Berlin");
                            ("units", VStr "metric")])
                    (sent true (read_line "Berlin" greeted))
                    ltac:(vm_compute; discriminate)
                    eq_refl eq_refl eq_refl)).
    intros location. discriminate.
Defined.

(** ** Payloads that are data *)

Lemma display_data (ev : pyexpr -> M pyval) (items : list (string * pyexpr)) :
  Forall (fun kv => forall st, ev (snd kv) st = (Ok (literal_value (snd kv)), st))
         items ->
  forall acc st,
    display ev items acc st =
      (Ok (VDict (fold_left (fun acc kv => dict_set acc (fst kv) (snd kv))
                    (map (fun kv => (fst kv, literal_value (snd kv))) items)
                    acc)),
       st).
Proof.
  induction 1 as [|[k e] rest He _ IH]; intros acc st; [reflexivity|].
  cbn [display map fold_left fst snd]. unfold bind at 1.
  simpl in He. rewrite He. apply IH.
Qed.

Lemma eval_data (e : pyexpr) :
  data_literal e = true ->
  forall user_input st, eval user_input e st = (Ok (literal_value e), st).
Proof.
  induction e using pyexpr_induction; intros Hd u st;
    try discriminate; try reflexivity.
  cbn [eval literal_value]. apply display_data.
  cbn [data_literal] in Hd. rewrite forallb_forall in Hd.
  rewrite Forall_forall in *. intros kv Hin st0.
  apply (H kv Hin). now apply Hd.
Qed.

Lemma data_literal_safe (e : pyexpr) :
  data_literal e = true -> transcript_safe e = true.
Proof.
  induction e using pyexpr_induction; intros Hd; try discriminate;
    try reflexivity.
  cbn [data_literal transcript_safe] in *.
  rewrite forallb_forall in *. rewrite Forall_forall in H.
  intros kv Hin. apply (H kv Hin). now apply Hd.
Qed.

(** On a payload that is data, [eval] is a function of the payload alone:
    it returns the object the payload denotes, whatever the user typed and
    whatever the transcript holds, and leaves the state as it is: nothing
    is printed, no message is touched, nothing is raised.  Two runs on the
    same data payload agree on the value. *)
Theorem eval_data_literal (e : pyexpr) :
  data_literal e = true ->
  (forall user_input st, eval user_input e st = (Ok (literal_value e), st))
  /\ (forall u1 u2 st1 st2, fst (eval u1 e st1) = fst (eval u2 e st2))
  /\ transcript_safe e = true.
Proof.
  intros Hd. split; [|split].
  - now apply eval_data.
  - intros u1 u2 st1 st2. now rewrite !(eval_data e Hd).
  - now apply data_literal_safe.
Qed.

Lemma eval_data_literal_witness :
  eval "Berlin" extra_key_payload greeted =
    (Ok (VDict [("location", VStr "Berlin"); ("units", VStr "metric")]), greeted).
Proof.
  apply (proj1 (eval_data_literal extra_key_payload eq_refl)).
Defined.

Lemma display_raises (ev : pyexpr -> M pyval) (before : list (string * pyexpr))
    (k : string) (bad : pyexpr) (after : list (string * pyexpr)) (e : exc) :
  Forall (fun kv => forall st, ev (snd kv) st = (Ok (literal_value (snd kv)), st))
         before ->
  (forall st, ev bad st = (Raise e, st)) ->
  forall acc st,
    display ev (before ++ (k, bad) :: after) acc st = (Raise e, st).
Proof.
  intros Hb Hbad. induction Hb as [|[k0 e0] rest He _ IH]; intros acc st.
  - cbn [app display]. unfold bind. now rewrite Hbad.
  - cbn [app display]. unfold bind at 1. simpl in He. rewrite He. apply IH.
Qed.

(** A payload written as JSON, with [true], [false] or [null] among the
    values of its object, ends the session.  The payload is a dict display
    of Python; the values before the JSON name are data (strings, integers
    and displays of them, which JSON and Python write alike); what comes
    after it is any expression of Python.  The evaluation raises
    [NameError] for that name, the turn stops after the first model call,
    the lookup is not made and the user message is the last entry of the
    transcript. *)
Theorem json_literal_ends_turn (w : world) (line : string) (st : state)
    (response : reply) (fc : function_call)
    (before : list (string * pyexpr)) (k : string) (x : ident)
    (after : list (string * pyexpr)) :
  lower (strip line) <> "quit" ->
  llm w (trace (read_line line st)) (messages (read_line line st)) true
    = Ok response ->
  reply_function_call response = Some fc ->
  arguments fc = EDict (before ++ (k, EName x) :: after) ->
  forallb (fun kv => data_literal (snd kv)) before = true ->
  forallb (fun kv => python_expr (snd kv)) after = true ->
  x <> id_user_input ->
  iteration w (Some line) st =
    (Raise (NameError (ident_text x)),
     {| messages :=
          messages st ++
            [{| role := "user"; name := None; content_of := Str (strip line) |}];
        trace :=
          (trace st ++ [Input "You: " (Some line)]) ++
            [ModelCall
               (messages st ++
                  [{| role := "user"; name := None;
                      content_of := Str (strip line) |}])
               true] |}).
Proof.
  intros Hq Hllm Hfc Hargs Hdata _ Hx.
  rewrite (iteration_turn w line st Hq), Hllm.
  unfold after_first_call. rewrite Hfc. unfold weather_branch.
  apply bind_raise. rewrite Hargs. cbn [eval].
  apply display_raises.
  - rewrite forallb_forall in Hdata. apply Forall_forall.
    intros kv Hin st0. apply eval_data. now apply Hdata.
  - intros st0. destruct x; [now destruct Hx | reflexivity ..].
Qed.

Lemma json_literal_ends_turn_witness :
  iteration (weather_world json_true_payload (Ok berlin_body))
    (Some "Berlin") greeted =
  (Raise (NameError "true"),
   {| messages :=
        [system_message;
         {| role := "user"; name := None; content_of := Str "Berlin" |}];
      trace :=
        [Print greeting; Input "You: " (Some "Berlin");
         ModelCall
           [system_message;
            {| role := "user"; name := None; content_of := Str "Berlin" |}]
           true] |}).
Proof.
  apply (json_literal_ends_turn
           (weather_world json_true_payload (Ok berlin_body)) "Berlin" greeted
           (request json_true_payload)
           {| fc_name := "fetch_weather_from_api";
              arguments := json_true_payload |}
           [("location", EStr "Berlin")] "detailed" id_true []);
    try reflexivity; discriminate.
Defined.

(** ** The dict built by a display *)

Lemma dict_get_set_same {A} (d : list (string * A)) (k : string) (v : A) :
  dict_get (dict_set d k v) k = Some v.
Proof.
  induction d as [|[k' v'] rest IH]; simpl.
  - now rewrite String.eqb_refl.
  - destruct (String.eqb k' k) eqn:E; simpl; rewrite E; [reflexivity | exact IH].
Qed.

Lemma dict_get_set_other {A} (d : list (string * A)) (k k0 : string) (v : A) :
  k <> k0 -> dict_get (dict_set d k v) k0 = dict_get d k0.
Proof.
  intros Hne. induction d as [|[k' v'] rest IH]; simpl.
  - apply String.eqb_neq in Hne. now rewrite Hne.
  - destruct (String.eqb k' k) eqn:E; simpl.
    + apply String.eqb_eq in E. subst k'.
      apply String.eqb_neq in Hne. now rewrite Hne.
    + destruct (String.eqb k' k0); [reflexivity | exact IH].
Qed.

Lemma dict_set_keys {A} (d : list (string * A)) (k : string) (v : A) :
  map fst (dict_set d k v) =
    if in_dec string_dec k (map fst d) then map fst d else map fst d ++ [k].
Proof.
  induction d as [|[k' v'] rest IH]; [reflexivity|]. simpl.
  destruct (String.eqb k' k) eqn:E.
  - apply String.eqb_eq in E. subst k'.
    destruct (string_dec k k); [reflexivity | congruence].
  - apply String.eqb_neq in E. simpl. rewrite IH.
    destruct (string_dec k' k) as [Heq|Hne]; [congruence|].
    now destruct (in_dec string_dec k (map fst rest)).
Qed.

Lemma dict_set_nodup {A} (d : list (string * A)) (k : string) (v : A) :
  NoDup (map fst d) -> NoDup (map fst (dict_set d k v)).
Proof.
  intros H. rewrite dict_set_keys.
  destruct (in_dec string_dec k (map fst d)) as [Hin|Hout]; [exact H|].
  apply NoDup_app; [exact H | repeat constructor; intros [] | ].
  intros a Ha [<-|[]]. now apply Hout.
Qed.

Lemma dict_get_app {A} (l1 l2 : list (string * A)) (k : string) :
  dict_get (l1 ++ l2) k =
    match dict_get l1 k with
    | Some v => Some v
    | None => dict_get l2 k
    end.
Proof.
  induction l1 as [|[k' v'] rest IH]; [reflexivity|]. simpl.
  now destruct (String.eqb k' k).
Qed.

Lemma dict_get_map {A B} (f : A -> B) (l : list (string * A)) (k : string) :
  dict_get (map (fun kv => (fst kv, f (snd kv))) l) k =
    option_map f (dict_get l k).
Proof.
  induction l as [|[k' v'] rest IH]; [reflexivity|]. simpl.
  now destruct (String.eqb k' k).
Qed.

Lemma fold_dict_set_get {A} (pairs acc : list (string * A)) (k : string) :
  dict_get (fold_left (fun acc kv => dict_set acc (fst kv) (snd kv)) pairs acc) k =
    match dict_get (rev pairs) k with
    | Some v => Some v
    | None => dict_get acc k
    end.
Proof.
  revert acc. induction pairs as [|[k' v'] rest IH]; intros acc; [reflexivity|].
  cbn [fold_left fst snd rev]. rewrite IH, dict_get_app.
  destruct (dict_get (rev rest) k); [reflexivity|]. simpl.
  destruct (String.eqb k' k) eqn:E.
  - apply String.eqb_eq in E. subst k'. apply dict_get_set_same.
  - apply String.eqb_neq in E. now apply dict_get_set_other.
Qed.

Lemma fold_dict_set_nodup {A} (pairs acc : list (string * A)) :
  NoDup (map fst acc) ->
  NoDup (map fst (fold_left (fun acc kv => dict_set acc (fst kv) (snd kv))
                    pairs acc)).
Proof.
  revert acc. induction pairs as [|[k v] rest IH]; intros acc H; [exact H|].
  cbn [fold_left fst snd]. apply IH. now apply dict_set_nodup.
Qed.

(** The object of a display of data has each key once, and under a key
    the value of the last item written with it: when the model repeats a
    key, the later value replaces the earlier one. *)
Theorem display_last_wins (items : list (string * pyexpr)) (user_input : string)
    (st : state) :
  forallb (fun kv => data_literal (snd kv)) items = true ->
  exists d,
    eval user_input (EDict items) st = (Ok (VDict d), st)
    /\ NoDup (map fst d)
    /\ forall k,
        dict_get d k = option_map literal_value (dict_get (rev items) k).
Proof.
  intros Hdata.
  exists (fold_left (fun acc kv => dict_set acc (fst kv) (snd kv))
            (map (fun kv => (fst kv, literal_value (snd kv))) items) []).
  split; [|split].
  - exact (eval_data (EDict items) Hdata user_input st).
  - apply fold_dict_set_nodup. constructor.
  - intros k. rewrite fold_dict_set_get, <- map_rev.
    rewrite (dict_get_map literal_value (rev items) k).
    now destruct (dict_get (rev items) k).
Qed.

Lemma display_last_wins_witness :
  exists d,
    eval "x" (EDict [("location", EStr "Berlin"); ("location", EStr "Paris")])
         greeted = (Ok (VDict d), greeted)
    /\ NoDup (map fst d)
    /\ forall k,
        dict_get d k =
          option_map literal_value
            (dict_get (rev [("location", EStr "Berlin"); ("location", EStr "Paris")])
                      k).
Proof.
  apply (display_last_wins
           [("location", EStr "Berlin"); ("location", EStr "Paris")] "x" greeted).
  reflexivity.
Defined.

(** A payload that writes [location] twice looks up the second place. *)
Example repeated_location :
  weather_calls
    (trace (snd (iteration
                   (weather_world
                      (EDict [("location", EStr "Berlin"); ("location", EStr "Paris")])
                      (Ok berlin_body))
                   (Some "Berlin or Paris?") greeted)))
  = [VStr "Paris"].
Proof. vm_compute. reflexivity. Qed.

(** ** Rounding below zero *)

Lemma SFopp_involutive (y : spec_float) : SFopp (SFopp y) = y.
Proof. destruct y; simpl; now rewrite ?negb_involutive. Qed.

Lemma float_opp_involutive (x : float) : (- - x)%float = x.
Proof.
  apply Prim2SF_inj. now rewrite !opp_spec, SFopp_involutive.
Qed.

Lemma SF2Prim_opp (y : spec_float) : SF2Prim (SFopp y) = (- SF2Prim y)%float.
Proof.
  destruct y as [[|]|[|]| |[|] m e]; simpl; try reflexivity.
  now rewrite float_opp_involutive.
Qed.

Lemma binary_round_aux_opp (s : bool) (m e : Z) (l : location) :
  binary_round_aux prec emax (negb s) m e l =
    SFopp (binary_round_aux prec emax s m e l).
Proof.
  unfold binary_round_aux.
  destruct (shr_fexp prec emax m e l) as [mrs' e'].
  destruct (shr_fexp prec emax _ e' loc_Exact) as [mrs'' e''].
  destruct (shr_m mrs''); [reflexivity| |reflexivity].
  now destruct (e'' <=? emax - prec).
Qed.

Lemma of_tenths_opp (s : bool) (n : Z) :
  of_tenths (negb s) n = SFopp (of_tenths s n).
Proof.
  destruct n as [|p|p]; [reflexivity| |reflexivity].
  unfold of_tenths, SFdiv.
  destruct (SFdiv_core_binary prec emax (Zpos p) 0 10 0) as [[mz ez] lz].
  rewrite !xorb_false_r. apply binary_round_aux_opp.
Qed.

(** [round(x, 1)] is symmetric about zero: the rounding of [-x] is the
    opposite of the rounding of [x], for every double, so a temperature
    just below zero is rounded like the one just above and keeps its sign
    ([-0.04] gives [-0.0]). *)
Theorem round1_opp (x : float) : round1 (- x)%float = (- round1 x)%float.
Proof.
  unfold round1. rewrite opp_spec.
  destruct (Prim2SF x) as [s|s| |s m e]; simpl; try reflexivity.
  now rewrite of_tenths_opp, SF2Prim_opp.
Qed.

(** ** What [strip] removes *)

(** [strip] takes white space away at the two ends of the text and
    nothing else, on text of all code points.  White space is one of 29
    code points, 17 of them above U+00FF.  The text is the stripped text
    between two runs of white space; the stripped text neither starts nor
    ends with white space; and it is the only such part: however the text
    is cut into white space, a part with clean ends and white space, the
    part is the stripped text, so that white space inside the text is kept.
    Stripping again changes nothing. *)
Theorem strip_spec (s : Wide.text) :
  (forall c,
      Wide.isspace c = true <->
      In c [9; 10; 11; 12; 13; 28; 29; 30; 31; 32; 133; 160; 5760;
            8192; 8193; 8194; 8195; 8196; 8197; 8198; 8199; 8200; 8201; 8202;
            8232; 8233; 8239; 8287; 12288])
  /\ (exists ws1 ws2,
         Wide.all_space ws1 = true /\ Wide.all_space ws2 = true
         /\ s = ws1 ++ Wide.strip s ++ ws2)
  /\ match Wide.strip s with
     | [] => True
     | c :: t => Wide.isspace c = false /\ Wide.isspace (last (c :: t) 0) = false
     end
  /\ (forall ws1 m ws2,
         Wide.all_space ws1 = true -> Wide.all_space ws2 = true ->
         Wide.clean m = true ->
         s = ws1 ++ m ++ ws2 -> Wide.strip s = m)
  /\ Wide.strip (Wide.strip s) = Wide.strip s.
Proof.
  split; [|split; [|split; [|split]]].
  - intros c. unfold Wide.isspace. cbn [In].
    rewrite !orb_true_iff, !andb_true_iff, !Z.leb_le, !Z.eqb_eq. lia.
  - apply WideFacts.wide_strip_decompose.
  - pose proof (WideFacts.wide_strip_clean s) as H.
    destruct (Wide.strip s) as [|c t]; [exact I|].
    unfold Wide.clean in H. apply andb_prop in H as [Hc Hl].
    now apply negb_true_iff in Hc, Hl.
  - intros ws1 m ws2 H1 H2 Hm ->. now apply WideFacts.wide_strip_unique.
  - apply WideFacts.wide_strip_idempotent.
Qed.

(** [strip] on a text with white space at both ends and inside. *)
Example strip_sample :
  Wide.strip [12288; 9; 78; 101; 119; 32; 8195; 89; 111; 114; 107; 160; 10]
  = [78; 101; 119; 32; 8195; 89; 111; 114; 107].
Proof. reflexivity. Qed.

(** ** Latin-1 text among all text *)

Lemma of_string_cons (c : ascii) (s : string) :
  Wide.of_string (String c s) = Z.of_N (code c) :: Wide.of_string s.
Proof. reflexivity. Qed.

Lemma of_string_injective (a b : string) :
  Wide.of_string a = Wide.of_string b -> a = b.
Proof.
  revert b. induction a as [|x a IH]; intros [|y b] H; try discriminate;
    [reflexivity|].
  rewrite !of_string_cons in H. inversion H as [[Hc Ht]].
  apply N2Z.inj in Hc. unfold code in Hc.
  rewrite <- (ascii_N_embedding x), <- (ascii_N_embedding y), Hc.
  f_equal. now apply IH.
Qed.

Lemma isspace_latin1 (c : ascii) : Wide.isspace (Z.of_N (code c)) = isspace c.
Proof. destruct c as [[] [] [] [] [] [] [] []]; reflexivity. Qed.

Lemma lower_at_latin1 (before : Wide.text) (c : ascii) (after : Wide.text) :
  Wide.lower_at before (Z.of_N (code c)) after = [Z.of_N (code (lower_char c))].
Proof. destruct c as [[] [] [] [] [] [] [] []]; vm_compute; reflexivity. Qed.

Lemma lstrip_latin1 (s : string) :
  Wide.lstrip (Wide.of_string s) = Wide.of_string (lstrip s).
Proof.
  induction s as [|c t IH]; [reflexivity|].
  rewrite of_string_cons. cbn [Wide.lstrip lstrip]. rewrite isspace_latin1.
  destruct (isspace c); [exact IH | now rewrite of_string_cons].
Qed.

Lemma rstrip_latin1 (s : string) :
  Wide.rstrip (Wide.of_string s) = Wide.of_string (rstrip s).
Proof.
  induction s as [|c t IH]; [reflexivity|].
  rewrite of_string_cons. cbn [Wide.rstrip rstrip]. rewrite IH, isspace_latin1.
  destruct (rstrip t) as [|c' t']; [now destruct (isspace c)|].
  now rewrite !of_string_cons.
Qed.

Lemma lower_from_latin1 (before : Wide.text) (s : string) :
  Wide.lower_from before (Wide.of_string s) = Wide.of_string (lower s).
Proof.
  revert before. induction s as [|c t IH]; intros before; [reflexivity|].
  rewrite of_string_cons. cbn [Wide.lower_from lower].
  now rewrite lower_at_latin1, IH, of_string_cons.
Qed.

(** On the text that [PyStr] holds, code points below 256, its [strip]
    and [lower] are those of all Unicode: the embedding of Latin-1 text
    into all text commutes with both, no two texts are embedded alike, and
    so the loop on Latin-1 lines takes the quit branch exactly when the
    loop on all text does. *)
Theorem latin1_agrees (s : string) :
  Wide.strip (Wide.of_string s) = Wide.of_string (strip s)
  /\ Wide.lower (Wide.of_string s) = Wide.of_string (lower s)
  /\ (forall t, Wide.of_string s = Wide.of_string t -> s = t)
  /\ (Wide.eqb (Wide.lower (Wide.strip (Wide.of_string s)))
        (Wide.of_string "quit")
      = String.eqb (lower (strip s)) "quit").
Proof.
  assert (Hs : Wide.strip (Wide.of_string s) = Wide.of_string (strip s))
    by (unfold Wide.strip, strip; now rewrite lstrip_latin1, rstrip_latin1).
  assert (Hl : forall x, Wide.lower (Wide.of_string x) = Wide.of_string (lower x))
    by (intros x; apply lower_from_latin1).
  split; [exact Hs|]. split; [apply Hl|]. split; [apply of_string_injective|].
  rewrite Hs, Hl.
  destruct (String.eqb (lower (strip s)) "quit") eqn:E.
  - apply String.eqb_eq in E. rewrite E. reflexivity.
  - apply String.eqb_neq in E. apply WideFacts.wide_eqb_false.
    intros H. apply E. now apply of_string_injective.
Qed.
